(** * Library-jb-API: the loan engine of [index.js]

    A shallow embedding of the Express handlers of [index.js] over a model of
    the Sequelize store they call, and the properties of the lending engine
    (borrow = [POST /alugar], return = [DELETE /devolver/:emprestimoId],
    renew = [POST /renovar], catalogue update = [PUT /livros/:id],
    [POST /login]).

    Modelling conventions.
    - A table is a finite map from primary keys to rows together with its
      AUTO_INCREMENT counter.  Primary keys and foreign keys are integers.
    - A [Date] is its time value, the number of milliseconds since the
      epoch.  The server's time zone is a parameter ([LocalTZA], the offset
      of local time from UTC at an instant), and [setDate (getDate () + n)]
      moves the local calendar day by [n] and keeps the local time of day,
      as ECMAScript defines it.
    - The text fields of a book or user body are either absent ([None],
      JavaScript [undefined]) or a string.  The [quantidade] of a book body
      is absent, a string (every field of a multipart body is one) or an
      integer number (a JSON body; a request that carries a file is
      multipart, so a number never comes with a file).  Identifiers are
      integers.  A login field is absent, [null], a string or an array of
      strings.
    - What the database does with a value on its way into a column is a
      parameter too ([coluna_inteiro], [coluna_faixaEtaria]): it is fixed
      only where every store agrees, on 32-bit integers, on their decimal
      numerals and on the four values of the enumeration; elsewhere a store
      may refuse the value, and [save] or [create] then throws.
    - Text values are taken to fit their columns ([STRING], 255
      characters).
    - A response that carries a model instance is represented by the row of
      that instance as the store holds it after the request; how the
      instance prints in JSON (a quantity assigned as a string prints as
      that string) is not modelled.
    - A model instance records which attributes were assigned through their
      setters since it was loaded, and [save] on a loaded instance updates
      those columns of its row and no other, as Sequelize documents for
      [changed] and [save].
    - The columns [createdAt] and [updatedAt], which Sequelize maintains by
      itself and no handler reads, are left out, and so is the e-mail
      route, which never writes to the store. *)

From Stdlib Require Import Ascii.
From stdpp Require Import gmap strings list fin_maps.

Open Scope string_scope.
Open Scope Z_scope.

(** ** JavaScript truthiness and [||] *)

Class Truthy (A : Type) := truthy : A → bool.

#[global] Instance truthy_string : Truthy string :=
  λ s, match s with EmptyString => false | String _ _ => true end.
#[global] Instance truthy_number : Truthy Z :=
  λ n, negb (Z.eqb n 0).

(** [x || y] where [x] is a request field and [y] the stored value. *)
Definition js_or {A} `{Truthy A} (x : option A) (y : A) : A :=
  match x with
  | Some v => if truthy v then v else y
  | None => y
  end.

(** ** Values of a request field *)

(** The value of [quantidade] in a request body: a string or an integer
    number. *)
Inductive JsValor :=
| JTexto (s : string)
| JNumero (n : Z).

#[global] Instance JsValor_eq_dec : EqDecision JsValor.
Proof. solve_decision. Defined.

#[global] Instance truthy_JsValor : Truthy JsValor :=
  λ v, match v with
       | JTexto s => truthy s
       | JNumero n => truthy n
       end.

(** A value of the [where] of [findOne]: [null], a string (the column equals
    it) or an array of strings (the column is [IN] it). *)
Inductive ValorWhere :=
| WNulo
| WTexto (s : string)
| WLista (l : list string).

Definition where_coincide (v : ValorWhere) (x : string) : Prop :=
  match v with
  | WNulo => False
  | WTexto s => x = s
  | WLista l => x ∈ l
  end.

#[global] Instance where_coincide_dec v x : Decision (where_coincide v x).
Proof. destruct v; simpl; apply _. Defined.

(** ** Decimal numerals *)

Definition digito (c : ascii) : option Z :=
  let n := Z.of_N (N_of_ascii c) - 48 in
  if (0 <=? n) && (n <=? 9) then Some n else None.

Fixpoint ler_digitos (acc : Z) (s : string) : option Z :=
  match s with
  | EmptyString => Some acc
  | String c s' => d ← digito c; ler_digitos (10 * acc + d) s'
  end.

(** The integer a string of decimal digits, with an optional minus sign,
    denotes. *)
Definition ler_decimal (s : string) : option Z :=
  match s with
  | EmptyString => None
  | String "-"%char EmptyString => None
  | String "-"%char s' => Z.opp <$> ler_digitos 0 s'
  | _ => ler_digitos 0 s
  end.

(** ** The environment of the server: time zone and database columns *)

(** The values of [Sequelize.ENUM] at the [faixaEtaria] column. *)
Definition faixasEtarias : list string :=
  ["Livre"; "Infantil"; "Infantojuvenil"; "Adulto"].

(** The range of an INTEGER column. *)
Definition na_coluna_INTEGER (n : Z) : Prop :=
  -2147483648 ≤ n ≤ 2147483647.

Class Ambiente := {
  (** [LocalTZA t isUTC]: the offset of local time from UTC, in
      milliseconds, at the UTC instant [t] ([isUTC = true]) or at the local
      time [t] ([isUTC = false]). *)
  LocalTZA : Z → bool → Z;
  (** What an INTEGER column holds after a value is written to it; [None]
      when the store refuses the value. *)
  coluna_inteiro : JsValor → option Z;
  (** The same for the [faixaEtaria] column. *)
  coluna_faixaEtaria : string → option string;
  coluna_inteiro_numero : ∀ n,
    na_coluna_INTEGER n → coluna_inteiro (JNumero n) = Some n;
  coluna_inteiro_texto : ∀ s n,
    ler_decimal s = Some n → na_coluna_INTEGER n →
    coluna_inteiro (JTexto s) = Some n;
  coluna_faixaEtaria_valida : ∀ s,
    s ∈ faixasEtarias → coluna_faixaEtaria s = Some s
}.

(** ** Dates *)

Definition msPerDay : Z := 86400000.

Section Datas.
Context `{!Ambiente}.

Definition LocalTime (t : Z) : Z := t + LocalTZA t true.

Definition UTC (t : Z) : Z := t - LocalTZA t false.

(** [d.setDate(d.getDate() + n)]: the day of the local time of [d] moves by
    [n], the time within the day stays, and the result is taken back to
    UTC. *)
Definition setDate_mais (d n : Z) : Z := UTC (LocalTime d + n * msPerDay).
End Datas.

(** ** The models *)

Record Usuario := mkUsuario {
  nome : string;
  email : string;
  senha : string
}.

Record Livro := mkLivro {
  titulo : string;
  autor : string;
  quantidade : Z;
  editora : string;
  assunto : string;
  faixaEtaria : string;
  imagem : option string
}.

Record Emprestimo := mkEmprestimo {
  UsuarioId : Z;
  LivroId : Z;
  dataVencimento : Z;
  renovações : Z
}.

#[global] Instance Usuario_eq_dec : EqDecision Usuario.
Proof. solve_decision. Defined.
#[global] Instance Livro_eq_dec : EqDecision Livro.
Proof. solve_decision. Defined.
#[global] Instance Emprestimo_eq_dec : EqDecision Emprestimo.
Proof. solve_decision. Defined.

(** Attribute names, and the value of an attribute in a row. *)
Inductive AttrUsuario := ANome | AEmail | ASenha.
Inductive AttrLivro :=
  ATitulo | AAutor | AQuantidade | AEditora | AAssunto | AFaixaEtaria | AImagem.
Inductive AttrEmprestimo :=
  AUsuarioId | ALivroId | ADataVencimento | ARenovações.

#[global] Instance AttrUsuario_eq_dec : EqDecision AttrUsuario.
Proof. solve_decision. Defined.
#[global] Instance AttrLivro_eq_dec : EqDecision AttrLivro.
Proof. solve_decision. Defined.
#[global] Instance AttrEmprestimo_eq_dec : EqDecision AttrEmprestimo.
Proof. solve_decision. Defined.

Inductive Valor :=
| VTexto (s : string)
| VNumero (n : Z)
| VTextoOuNulo (o : option string).

(** A Sequelize model: how to read an attribute of a row and how to copy
    one attribute from a row into another. *)
Class Modelo (A Attr : Type) `{EqDecision Attr} := {
  ler : Attr → A → Valor;
  copiar : Attr → A → A → A;
  ler_copiar : ∀ a b de para,
    ler a (copiar b de para) = if decide (a = b) then ler a de else ler a para;
  ler_ext : ∀ x y, (∀ a, ler a x = ler a y) → x = y
}.

Definition com_nome (v : string) (u : Usuario) : Usuario :=
  {| nome := v; email := email u; senha := senha u |}.
Definition com_email (v : string) (u : Usuario) : Usuario :=
  {| nome := nome u; email := v; senha := senha u |}.
Definition com_senha (v : string) (u : Usuario) : Usuario :=
  {| nome := nome u; email := email u; senha := v |}.

Definition com_titulo (v : string) (l : Livro) : Livro :=
  {| titulo := v; autor := autor l; quantidade := quantidade l;
     editora := editora l; assunto := assunto l;
     faixaEtaria := faixaEtaria l; imagem := imagem l |}.
Definition com_autor (v : string) (l : Livro) : Livro :=
  {| titulo := titulo l; autor := v; quantidade := quantidade l;
     editora := editora l; assunto := assunto l;
     faixaEtaria := faixaEtaria l; imagem := imagem l |}.
Definition com_quantidade (v : Z) (l : Livro) : Livro :=
  {| titulo := titulo l; autor := autor l; quantidade := v;
     editora := editora l; assunto := assunto l;
     faixaEtaria := faixaEtaria l; imagem := imagem l |}.
Definition com_editora (v : string) (l : Livro) : Livro :=
  {| titulo := titulo l; autor := autor l; quantidade := quantidade l;
     editora := v; assunto := assunto l;
     faixaEtaria := faixaEtaria l; imagem := imagem l |}.
Definition com_assunto (v : string) (l : Livro) : Livro :=
  {| titulo := titulo l; autor := autor l; quantidade := quantidade l;
     editora := editora l; assunto := v;
     faixaEtaria := faixaEtaria l; imagem := imagem l |}.
Definition com_faixaEtaria (v : string) (l : Livro) : Livro :=
  {| titulo := titulo l; autor := autor l; quantidade := quantidade l;
     editora := editora l; assunto := assunto l;
     faixaEtaria := v; imagem := imagem l |}.
Definition com_imagem (v : option string) (l : Livro) : Livro :=
  {| titulo := titulo l; autor := autor l; quantidade := quantidade l;
     editora := editora l; assunto := assunto l;
     faixaEtaria := faixaEtaria l; imagem := v |}.

Definition com_UsuarioId (v : Z) (e : Emprestimo) : Emprestimo :=
  {| UsuarioId := v; LivroId := LivroId e;
     dataVencimento := dataVencimento e; renovações := renovações e |}.
Definition com_LivroId (v : Z) (e : Emprestimo) : Emprestimo :=
  {| UsuarioId := UsuarioId e; LivroId := v;
     dataVencimento := dataVencimento e; renovações := renovações e |}.
Definition com_dataVencimento (v : Z) (e : Emprestimo) : Emprestimo :=
  {| UsuarioId := UsuarioId e; LivroId := LivroId e;
     dataVencimento := v; renovações := renovações e |}.
Definition com_renovações (v : Z) (e : Emprestimo) : Emprestimo :=
  {| UsuarioId := UsuarioId e; LivroId := LivroId e;
     dataVencimento := dataVencimento e; renovações := v |}.

#[global, program] Instance Modelo_Usuario : Modelo Usuario AttrUsuario := {|
  ler a u := match a with
             | ANome => VTexto (nome u)
             | AEmail => VTexto (email u)
             | ASenha => VTexto (senha u)
             end;
  copiar a de para := match a with
                      | ANome => com_nome (nome de) para
                      | AEmail => com_email (email de) para
                      | ASenha => com_senha (senha de) para
                      end
|}.
Next Obligation. intros [] [] ? ?; reflexivity. Qed.
Next Obligation.
  intros [] [] H.
  pose proof (H ANome) as H1; pose proof (H AEmail) as H2;
    pose proof (H ASenha) as H3.
  simpl in *; congruence.
Qed.

#[global, program] Instance Modelo_Livro : Modelo Livro AttrLivro := {|
  ler a l := match a with
             | ATitulo => VTexto (titulo l)
             | AAutor => VTexto (autor l)
             | AQuantidade => VNumero (quantidade l)
             | AEditora => VTexto (editora l)
             | AAssunto => VTexto (assunto l)
             | AFaixaEtaria => VTexto (faixaEtaria l)
             | AImagem => VTextoOuNulo (imagem l)
             end;
  copiar a de para := match a with
                      | ATitulo => com_titulo (titulo de) para
                      | AAutor => com_autor (autor de) para
                      | AQuantidade => com_quantidade (quantidade de) para
                      | AEditora => com_editora (editora de) para
                      | AAssunto => com_assunto (assunto de) para
                      | AFaixaEtaria => com_faixaEtaria (faixaEtaria de) para
                      | AImagem => com_imagem (imagem de) para
                      end
|}.
Next Obligation. intros [] [] ? ?; reflexivity. Qed.
Next Obligation.
  intros [] [] H.
  pose proof (H ATitulo); pose proof (H AAutor); pose proof (H AQuantidade);
    pose proof (H AEditora); pose proof (H AAssunto);
    pose proof (H AFaixaEtaria); pose proof (H AImagem).
  simpl in *; congruence.
Qed.

#[global, program] Instance Modelo_Emprestimo :
  Modelo Emprestimo AttrEmprestimo := {|
  ler a e := match a with
             | AUsuarioId => VNumero (UsuarioId e)
             | ALivroId => VNumero (LivroId e)
             | ADataVencimento => VNumero (dataVencimento e)
             | ARenovações => VNumero (renovações e)
             end;
  copiar a de para := match a with
                      | AUsuarioId => com_UsuarioId (UsuarioId de) para
                      | ALivroId => com_LivroId (LivroId de) para
                      | ADataVencimento =>
                          com_dataVencimento (dataVencimento de) para
                      | ARenovações => com_renovações (renovações de) para
                      end
|}.
Next Obligation. intros [] [] ? ?; reflexivity. Qed.
Next Obligation.
  intros [] [] H.
  pose proof (H AUsuarioId); pose proof (H ALivroId);
    pose proof (H ADataVencimento); pose proof (H ARenovações).
  simpl in *; congruence.
Qed.

(** ** The store: tables and Sequelize instances *)

Record Tabela (A : Type) := mkTabela {
  linhas : gmap Z A;
  autoIncrement : Z
}.
Arguments mkTabela {A} _ _.
Arguments linhas {A} _.
Arguments autoIncrement {A} _.

(** A model instance in memory: its primary key, its [dataValues], and the
    attributes recorded as changed since it was loaded.  An attribute is
    recorded when it is assigned through its setter with a value that
    differs from the current one. *)
Record Instancia (A Attr : Type) := mkInstancia {
  pk : Z;
  dataValues : A;
  changed : list Attr
}.
Arguments mkInstancia {A Attr} _ _ _.
Arguments pk {A Attr} _.
Arguments dataValues {A Attr} _.
Arguments changed {A Attr} _.

Section Sequelize.
Context {A Attr : Type} `{Modelo A Attr} `{EqDecision A}.

Definition findByPk (t : Tabela A) (k : Z) : option (Instancia A Attr) :=
  (λ row, mkInstancia k row []) <$> linhas t !! k.

(** [findOne({ where })]: the first row, in the store's order, that
    satisfies the condition. *)
Definition findOne (onde : A → bool) (t : Tabela A)
  : option (Instancia A Attr) :=
  (λ kv : Z * A, mkInstancia kv.1 kv.2 []) <$>
    head (filter (λ kv : Z * A, onde kv.2 = true) (map_to_list (linhas t))).

(** [Model.create(row)]: the row is inserted under the next key. *)
Definition create (row : A) (t : Tabela A) : Instancia A Attr * Tabela A :=
  (mkInstancia (autoIncrement t) row [],
   {| linhas := <[autoIncrement t := row]> (linhas t);
      autoIncrement := autoIncrement t + 1 |}).

(** [instance.attr = v], written as the update [f] of attribute [a]. *)
Definition setAttr (a : Attr) (f : A → A) (i : Instancia A Attr)
  : Instancia A Attr :=
  let novo := f (dataValues i) in
  {| pk := pk i;
     dataValues := novo;
     changed := if decide (novo = dataValues i) then changed i
                else a :: changed i |}.

(** A mutation of the object an attribute holds (for instance a [Date]
    changed by its own [setDate]): [dataValues] sees the new contents, no
    setter runs, and nothing is recorded as changed. *)
Definition mutar (f : A → A) (i : Instancia A Attr) : Instancia A Attr :=
  {| pk := pk i; dataValues := f (dataValues i); changed := changed i |}.

(** The row that [save] writes: the stored row with the changed attributes
    taken from the instance ([UPDATE ... SET] over the changed columns). *)
Definition linha_gravada (i : Instancia A Attr) (row : A) : A :=
  foldr (λ a r, copiar a (dataValues i) r) row (changed i).

Definition save (i : Instancia A Attr) (t : Tabela A) : Tabela A :=
  match linhas t !! pk i with
  | Some row =>
      {| linhas := <[pk i := linha_gravada i row]> (linhas t);
         autoIncrement := autoIncrement t |}
  | None => t
  end.

Definition destroy (i : Instancia A Attr) (t : Tabela A) : Tabela A :=
  {| linhas := delete (pk i) (linhas t);
     autoIncrement := autoIncrement t |}.

(** The instance agrees with the stored row on every attribute that is not
    recorded as changed. *)
Definition coerente (i : Instancia A Attr) (row : A) : Prop :=
  ∀ a, a ∉ changed i → ler a (dataValues i) = ler a row.
End Sequelize.

Record Banco := mkBanco {
  Usuarios : Tabela Usuario;
  Livros : Tabela Livro;
  Emprestimos : Tabela Emprestimo
}.

Definition banco_vazio : Banco :=
  {| Usuarios := mkTabela ∅ 1; Livros := mkTabela ∅ 1;
     Emprestimos := mkTabela ∅ 1 |}.

(** ** Responses *)

Inductive Corpo :=
| JUsuario (k : Z) (u : Usuario)
| JLivro (k : Z) (l : Livro)
| JEmprestimo (k : Z) (e : Emprestimo)
| JMensagem (mensagem : string)
| JErro (erro : string)
(** [{ erro: prefixo + error.message }] for an exception thrown by the store;
    the text of [error.message] is the store's. *)
| JErroExcecao (prefixo : string).

Record Resposta := mkResposta {
  status : Z;
  corpo : Corpo
}.

#[global] Instance Corpo_eq_dec : EqDecision Corpo.
Proof. solve_decision. Defined.
#[global] Instance Resposta_eq_dec : EqDecision Resposta.
Proof. solve_decision. Defined.

(** ** Request bodies *)

Record CorpoLivro := mkCorpoLivro {
  req_titulo : option string;
  req_autor : option string;
  req_quantidade : option JsValor;
  req_editora : option string;
  req_assunto : option string;
  req_faixaEtaria : option string
}.

Record CorpoUsuario := mkCorpoUsuario {
  req_nome : option string;
  req_email : option string;
  req_senha : option string
}.

(** ** Books *)

Section Servidor.
Context `{!Ambiente}.

(** The row of [Livro.create]; every column but [imagem] has
    [allowNull: false], so an absent field is a validation error, and so is
    a value that its column refuses. *)
Definition novoLivro (body : CorpoLivro) (file : option string)
  : option Livro :=
  t ← req_titulo body; a ← req_autor body;
  v ← req_quantidade body; q ← coluna_inteiro v;
  e ← req_editora body; s ← req_assunto body;
  g ← req_faixaEtaria body; f ← coluna_faixaEtaria g;
  Some {| titulo := t; autor := a; quantidade := q; editora := e;
          assunto := s; faixaEtaria := f; imagem := file |}.

(** [POST /livros] *)
Definition postLivros (body : CorpoLivro) (file : option string) (b : Banco)
  : Banco * Resposta :=
  match novoLivro body file with
  | Some row =>
      let '(livro, livros) := create (Attr := AttrLivro) row (Livros b) in
      ({| Usuarios := Usuarios b; Livros := livros;
          Emprestimos := Emprestimos b |},
       {| status := 201; corpo := JLivro (pk livro) (dataValues livro) |})
  | None =>
      (b, {| status := 500; corpo := JErroExcecao "Erro no servidor: " |})
  end.

(** What the [quantidade] column holds once [quantidade || livro.quantidade]
    has been assigned and saved: the stored value when the submitted one is
    missing or falsy, else what the column makes of the submitted value
    ([None] when the store refuses it).  A number equal to the stored one
    is no change and is not written. *)
Definition quantidade_atribuida (enviado : option JsValor) (anterior : Z)
  : option Z :=
  match enviado with
  | Some v =>
      if truthy v then
        if decide (v = JNumero anterior) then Some anterior
        else coluna_inteiro v
      else Some anterior
  | None => Some anterior
  end.

(** The same for [faixaEtaria || livro.faixaEtaria]. *)
Definition faixaEtaria_atribuida (enviado : option string)
  (anterior : string) : option string :=
  match enviado with
  | Some g =>
      if truthy g then
        if decide (g = anterior) then Some anterior
        else coluna_faixaEtaria g
      else Some anterior
  | None => Some anterior
  end.

(** The assignments of [PUT /livros/:id] to the instance it loaded; [q] and
    [f] are what the columns make of the values assigned to [quantidade]
    and [faixaEtaria]. *)
Definition atribuir_livro (body : CorpoLivro) (file : option string)
  (q : Z) (f : string)
  (livro : Instancia Livro AttrLivro) : Instancia Livro AttrLivro :=
  let livro := setAttr ATitulo
    (com_titulo (js_or (req_titulo body) (titulo (dataValues livro))))
    livro in
  let livro := setAttr AAutor
    (com_autor (js_or (req_autor body) (autor (dataValues livro))))
    livro in
  let livro := setAttr AQuantidade (com_quantidade q) livro in
  let livro := setAttr AEditora
    (com_editora (js_or (req_editora body) (editora (dataValues livro))))
    livro in
  let livro := setAttr AAssunto
    (com_assunto (js_or (req_assunto body) (assunto (dataValues livro))))
    livro in
  let livro := setAttr AFaixaEtaria (com_faixaEtaria f) livro in
  match file with
  | Some filename => setAttr AImagem (com_imagem (Some filename)) livro
  | None => livro
  end.

(** [PUT /livros/:id]; when the store refuses an assigned value, [save]
    throws and the handler answers 500. *)
Definition putLivros (livroId : Z) (body : CorpoLivro) (file : option string)
  (b : Banco) : Banco * Resposta :=
  match findByPk (Livros b) livroId with
  | None => (b, {| status := 404; corpo := JErro "Livro não encontrado" |})
  | Some livro =>
      match quantidade_atribuida (req_quantidade body)
              (quantidade (dataValues livro)),
            faixaEtaria_atribuida (req_faixaEtaria body)
              (faixaEtaria (dataValues livro)) with
      | Some q, Some f =>
          let livro := atribuir_livro body file q f livro in
          ({| Usuarios := Usuarios b; Livros := save livro (Livros b);
              Emprestimos := Emprestimos b |},
           {| status := 200; corpo := JLivro (pk livro) (dataValues livro) |})
      | _, _ =>
          (b, {| status := 500; corpo := JErroExcecao "Erro no servidor: " |})
      end
  end.

(** ** Users *)

Definition novoUsuario (body : CorpoUsuario) : option Usuario :=
  n ← req_nome body; e ← req_email body; s ← req_senha body;
  Some {| nome := n; email := e; senha := s |}.

(** [unique: true] on [email]: some row other than [excepto] has it. *)
Definition email_em_uso (e : string) (excepto : option Z)
  (t : Tabela Usuario) : bool :=
  existsb (λ kv : Z * Usuario,
             bool_decide (Some kv.1 ≠ excepto ∧ email kv.2 = e))
          (map_to_list (linhas t)).

(** [POST /registrar] *)
Definition registrar (body : CorpoUsuario) (b : Banco) : Banco * Resposta :=
  match novoUsuario body with
  | Some row =>
      if email_em_uso (email row) None (Usuarios b) then
        (b, {| status := 400; corpo := JErroExcecao "" |})
      else
        let '(usuario, usuarios) :=
          create (Attr := AttrUsuario) row (Usuarios b) in
        ({| Usuarios := usuarios; Livros := Livros b;
            Emprestimos := Emprestimos b |},
         {| status := 201;
            corpo := JUsuario (pk usuario) (dataValues usuario) |})
  | None => (b, {| status := 400; corpo := JErroExcecao "" |})
  end.

(** The assignments of [PUT /usuarios/:id] to the instance it loaded. *)
Definition atribuir_usuario (body : CorpoUsuario)
  (usuario : Instancia Usuario AttrUsuario) : Instancia Usuario AttrUsuario :=
  let usuario := setAttr ANome
    (com_nome (js_or (req_nome body) (nome (dataValues usuario))))
    usuario in
  let usuario := setAttr AEmail
    (com_email (js_or (req_email body) (email (dataValues usuario))))
    usuario in
  setAttr ASenha
    (com_senha (js_or (req_senha body) (senha (dataValues usuario))))
    usuario.

(** [PUT /usuarios/:id]; the update is refused by the store when it moves
    the e-mail to one that another row has. *)
Definition putUsuarios (usuarioId : Z) (body : CorpoUsuario) (b : Banco)
  : Banco * Resposta :=
  match findByPk (Usuarios b) usuarioId with
  | None => (b, {| status := 404; corpo := JErro "Usuário não encontrado" |})
  | Some usuario =>
      let usuario := atribuir_usuario body usuario in
      if bool_decide (AEmail ∈ changed usuario)
         && email_em_uso (email (dataValues usuario)) (Some usuarioId)
              (Usuarios b)
      then (b, {| status := 400; corpo := JErroExcecao "" |})
      else
        ({| Usuarios := save usuario (Usuarios b); Livros := Livros b;
            Emprestimos := Emprestimos b |},
         {| status := 200;
            corpo := JUsuario (pk usuario) (dataValues usuario) |})
  end.

(** [POST /login]: [findOne({ where: { email, senha } })] throws when a
    field is [undefined]. *)
Definition postLogin (req_email req_senha : option ValorWhere) (b : Banco)
  : Banco * Resposta :=
  match req_email, req_senha with
  | Some ve, Some vs =>
      match findOne (Attr := AttrUsuario)
              (λ u, bool_decide (where_coincide ve (email u)
                                 ∧ where_coincide vs (senha u)))
              (Usuarios b) with
      | Some usuario =>
          (b, {| status := 200;
                 corpo := JUsuario (pk usuario) (dataValues usuario) |})
      | None =>
          (b, {| status := 401; corpo := JErro "Credenciais inválidas" |})
      end
  | _, _ => (b, {| status := 400; corpo := JErroExcecao "" |})
  end.

(** [POST /login] with two strings. *)
Definition login (req_email req_senha : string) (b : Banco)
  : Banco * Resposta :=
  postLogin (Some (WTexto req_email)) (Some (WTexto req_senha)) b.

(** ** The lending engine *)

Definition erro400 (erro : string) : Resposta :=
  {| status := 400; corpo := JErro erro |}.

(** [POST /alugar]; [agora] is the instant [new Date()] reads. *)
Definition alugar (agora usuarioId livroId : Z) (b : Banco)
  : Banco * Resposta :=
  let usuario := findByPk (Attr := AttrUsuario) (Usuarios b) usuarioId in
  let livro := findByPk (Attr := AttrLivro) (Livros b) livroId in
  match usuario, livro with
  | Some _, Some livro =>
      if 0 <? quantidade (dataValues livro) then
        let dataVencimento := setDate_mais agora 7 in
        let '(emprestimo, emprestimos) :=
          create (Attr := AttrEmprestimo)
            {| UsuarioId := usuarioId; LivroId := livroId;
               dataVencimento := dataVencimento; renovações := 0 |}
            (Emprestimos b) in
        let livro := setAttr AQuantidade
          (com_quantidade (quantidade (dataValues livro) - 1)) livro in
        ({| Usuarios := Usuarios b; Livros := save livro (Livros b);
            Emprestimos := emprestimos |},
         {| status := 201;
            corpo := JEmprestimo (pk emprestimo) (dataValues emprestimo) |})
      else
        (b, erro400 "Usuário ou livro inválido, ou livro não disponível")
  | _, _ => (b, erro400 "Usuário ou livro inválido, ou livro não disponível")
  end.

(** [DELETE /devolver/:emprestimoId] *)
Definition devolver (emprestimoId : Z) (b : Banco) : Banco * Resposta :=
  match findByPk (Attr := AttrEmprestimo) (Emprestimos b) emprestimoId with
  | Some emprestimo =>
      match findByPk (Attr := AttrLivro) (Livros b)
              (LivroId (dataValues emprestimo)) with
      | Some livro =>
          let livro := setAttr AQuantidade
            (com_quantidade (quantidade (dataValues livro) + 1)) livro in
          ({| Usuarios := Usuarios b; Livros := save livro (Livros b);
              Emprestimos := destroy emprestimo (Emprestimos b) |},
           {| status := 200;
              corpo := JMensagem "Livro devolvido com sucesso" |})
      | None => (b, erro400 "Livro não encontrado")
      end
  | None => (b, erro400 "ID de empréstimo inválido")
  end.

(** What [POST /renovar] does to the instance it loaded: the renewal count
    is assigned through its setter; the due date is the [Date] object held by
    the instance, moved in place by its own [setDate]. *)
Definition renovar_instancia
  (emprestimo : Instancia Emprestimo AttrEmprestimo)
  : Instancia Emprestimo AttrEmprestimo :=
  let emprestimo := setAttr ARenovações
    (com_renovações (renovações (dataValues emprestimo) + 1)) emprestimo in
  mutar (λ e, com_dataVencimento (setDate_mais (dataVencimento e) 7) e)
    emprestimo.

(** [POST /renovar] *)
Definition renovar (emprestimoId : Z) (b : Banco) : Banco * Resposta :=
  match findByPk (Attr := AttrEmprestimo) (Emprestimos b) emprestimoId with
  | Some emprestimo =>
      if renovações (dataValues emprestimo) <? 2 then
        let emprestimo := renovar_instancia emprestimo in
        ({| Usuarios := Usuarios b; Livros := Livros b;
            Emprestimos := save emprestimo (Emprestimos b) |},
         {| status := 200; corpo := JMensagem "Livro renovado com sucesso!" |})
      else (b, erro400 "Não é possível renovar mais vezes")
  | None => (b, erro400 "Não é possível renovar mais vezes")
  end.

(** ** Requests and runs of the server *)

Inductive Pedido :=
| PostLivros (body : CorpoLivro) (file : option string)
| PutLivros (livroId : Z) (body : CorpoLivro) (file : option string)
| Registrar (body : CorpoUsuario)
| PutUsuarios (usuarioId : Z) (body : CorpoUsuario)
| Login (req_email req_senha : option ValorWhere)
| Alugar (agora usuarioId livroId : Z)
| Devolver (emprestimoId : Z)
| Renovar (emprestimoId : Z).

Definition atender (p : Pedido) (b : Banco) : Banco * Resposta :=
  match p with
  | PostLivros body file => postLivros body file b
  | PutLivros livroId body file => putLivros livroId body file b
  | Registrar body => registrar body b
  | PutUsuarios usuarioId body => putUsuarios usuarioId body b
  | Login e s => postLogin e s b
  | Alugar agora usuarioId livroId => alugar agora usuarioId livroId b
  | Devolver emprestimoId => devolver emprestimoId b
  | Renovar emprestimoId => renovar emprestimoId b
  end.

(** The stores the server can reach from the empty database, one request
    after the other. *)
Inductive alcancavel : Banco → Prop :=
| alc_vazio : alcancavel banco_vazio
| alc_passo b p : alcancavel b → alcancavel (atender p b).1.

(** Every key of a table is below its AUTO_INCREMENT counter. *)
Definition chaves_abaixo {A} (t : Tabela A) : Prop :=
  map_Forall (λ k _, k < autoIncrement t) (linhas t).

(** ** Quantities and open loans *)

(** The open loans that reference book [livroId]. *)
Definition emprestimos_do_livro (livroId : Z) (b : Banco)
  : gmap Z Emprestimo :=
  filter (λ kv : Z * Emprestimo, LivroId kv.2 = livroId)
         (linhas (Emprestimos b)).

(** [quantidade] of the book plus the number of open loans on it. *)
Definition saldo (livroId : Z) (b : Banco) : option Z :=
  (λ l, quantidade l + Z.of_nat (size (emprestimos_do_livro livroId b)))
    <$> linhas (Livros b) !! livroId.

(** ** [POST /alugar] one store access at a time

    Each [await] of the handler is one access to the store; between two of
    them another request may run. *)

Inductive EstadoAlugar :=
| Inicio
| ComUsuario (usuario : option (Instancia Usuario AttrUsuario))
| ComLivro (usuario : option (Instancia Usuario AttrUsuario))
           (livro : option (Instancia Livro AttrLivro))
| ComEmprestimo (emprestimo : Instancia Emprestimo AttrEmprestimo)
                (livro : Instancia Livro AttrLivro)
| Respondido (r : Resposta).

Definition alugar_passo (agora usuarioId livroId : Z)
  (e : EstadoAlugar) (b : Banco) : EstadoAlugar * Banco :=
  match e with
  | Inicio => (ComUsuario (findByPk (Usuarios b) usuarioId), b)
  | ComUsuario usuario => (ComLivro usuario (findByPk (Livros b) livroId), b)
  | ComLivro (Some _) (Some livro) =>
      if 0 <? quantidade (dataValues livro) then
        let dataVencimento := setDate_mais agora 7 in
        let '(emprestimo, emprestimos) :=
          create (Attr := AttrEmprestimo)
            {| UsuarioId := usuarioId; LivroId := livroId;
               dataVencimento := dataVencimento; renovações := 0 |}
            (Emprestimos b) in
        (ComEmprestimo emprestimo livro,
         {| Usuarios := Usuarios b; Livros := Livros b;
            Emprestimos := emprestimos |})
      else
        (Respondido
           (erro400 "Usuário ou livro inválido, ou livro não disponível"), b)
  | ComLivro _ _ =>
      (Respondido
         (erro400 "Usuário ou livro inválido, ou livro não disponível"), b)
  | ComEmprestimo emprestimo livro =>
      let livro := setAttr AQuantidade
        (com_quantidade (quantidade (dataValues livro) - 1)) livro in
      (Respondido
         {| status := 201;
            corpo := JEmprestimo (pk emprestimo) (dataValues emprestimo) |},
       {| Usuarios := Usuarios b; Livros := save livro (Livros b);
          Emprestimos := Emprestimos b |})
  | Respondido r => (Respondido r, b)
  end.

(** Two borrow requests in flight; [agenda] says whose store access comes
    next ([true]: the first request). *)
Record DoisPedidos := mkDoisPedidos {
  primeiro : EstadoAlugar;
  segundo : EstadoAlugar;
  banco : Banco
}.

Fixpoint intercalar (agora1 usuario1 livro1 agora2 usuario2 livro2 : Z)
  (agenda : list bool) (c : DoisPedidos) : DoisPedidos :=
  match agenda with
  | [] => c
  | true :: agenda =>
      let '(e, b) := alugar_passo agora1 usuario1 livro1
                       (primeiro c) (banco c) in
      intercalar agora1 usuario1 livro1 agora2 usuario2 livro2 agenda
        {| primeiro := e; segundo := segundo c; banco := b |}
  | false :: agenda =>
      let '(e, b) := alugar_passo agora2 usuario2 livro2
                       (segundo c) (banco c) in
      intercalar agora1 usuario1 livro1 agora2 usuario2 livro2 agenda
        {| primeiro := primeiro c; segundo := e; banco := b |}
  end.

Definition sucesso (e : EstadoAlugar) : bool :=
  match e with
  | Respondido r => bool_decide (status r = 201)
  | _ => false
  end.

Definition indisponivel (e : EstadoAlugar) : bool :=
  match e with
  | Respondido r =>
      bool_decide
        (r = erro400 "Usuário ou livro inválido, ou livro não disponível")
  | _ => false
  end.

(** The loan [POST /alugar] creates. *)
Definition emprestimo_novo (agora usuarioId livroId : Z) : Emprestimo :=
  {| UsuarioId := usuarioId; LivroId := livroId;
     dataVencimento := setDate_mais agora 7; renovações := 0 |}.

(** A run of requests, one after the other. *)
Definition atender_todos (ps : list Pedido) (b : Banco) : Banco :=
  foldl (λ b p, (atender p b).1) b ps.
End Servidor.

(** ** Two environments *)

(** A server on UTC in front of a store that takes what every store takes
    and refuses the rest: integers outside the INTEGER range, strings that
    are no decimal numeral, values outside the enumeration (MySQL, the
    dialect [index.js] configures, in its strict mode). *)
#[global, program] Instance ambiente_UTC : Ambiente := {|
  LocalTZA _ _ := 0;
  coluna_inteiro v :=
    match v with
    | JNumero n => if decide (na_coluna_INTEGER n) then Some n else None
    | JTexto s =>
        n ← ler_decimal s;
        if decide (na_coluna_INTEGER n) then Some n else None
    end;
  coluna_faixaEtaria s := if decide (s ∈ faixasEtarias) then Some s else None
|}.
Next Obligation. intros n Hn. simpl. by rewrite decide_True. Qed.
Next Obligation. intros s n Hs Hn. simpl. rewrite Hs. simpl. by rewrite decide_True. Qed.
Next Obligation. intros s Hs. simpl. by rewrite decide_True. Qed.

(** The same store behind a server on New York time around the change to
    daylight-saving time of 10 March 2024 (02:00 local, 07:00 UTC): five
    hours behind UTC before it, four hours after. *)
Definition ambiente_Nova_Iorque : Ambiente :=
  {| LocalTZA t isUTC :=
       if isUTC then
         if t <? 1710054000000 then -18000000 else -14400000
       else
         if t <? 1710039600000 then -18000000 else -14400000;
     coluna_inteiro := @coluna_inteiro ambiente_UTC;
     coluna_faixaEtaria := @coluna_faixaEtaria ambiente_UTC;
     coluna_inteiro_numero := @coluna_inteiro_numero ambiente_UTC;
     coluna_inteiro_texto := @coluna_inteiro_texto ambiente_UTC;
     coluna_faixaEtaria_valida := @coluna_faixaEtaria_valida ambiente_UTC |}.

(** ** Rows, stores and predicates used in the statements *)

Definition msg_alugar : string :=
  "Usuário ou livro inválido, ou livro não disponível".

(** The row [PUT /livros/:id] saves over the stored one; [q] and [f] are
    what the columns make of the values assigned to [quantidade] and
    [faixaEtaria]. *)
Definition livro_atualizado (body : CorpoLivro) (file : option string)
  (q : Z) (f : string) (livro : Livro) : Livro :=
  {| titulo := js_or (req_titulo body) (titulo livro);
     autor := js_or (req_autor body) (autor livro);
     quantidade := q;
     editora := js_or (req_editora body) (editora livro);
     assunto := js_or (req_assunto body) (assunto livro);
     faixaEtaria := f;
     imagem := match file with
               | Some filename => Some filename
               | None => imagem livro
               end |}.

Definition corpo_ana : CorpoUsuario :=
  {| req_nome := Some "Ana"; req_email := Some "ana@exemplo.br";
     req_senha := Some "segredo" |}.

Definition corpo_rui : CorpoUsuario :=
  {| req_nome := Some "Rui"; req_email := Some "rui@exemplo.br";
     req_senha := Some "chave" |}.

Definition corpo_livro_A (q : Z) : CorpoLivro :=
  {| req_titulo := Some "A"; req_autor := Some "Autor";
     req_quantidade := Some (JNumero q); req_editora := Some "Editora";
     req_assunto := Some "Romance"; req_faixaEtaria := Some "Livre" |}.

(** Two users and one book with a single copy. *)
Definition banco_um_exemplar : Banco :=
  atender_todos
    [Registrar corpo_ana; Registrar corpo_rui; PostLivros (corpo_livro_A 1) None]
    banco_vazio.

(** The same after Ana has borrowed the copy at instant [1000]. *)
Definition banco_emprestado : Banco :=
  atender_todos [Alugar 1000 1 1] banco_um_exemplar.

(** A stored field after an update: kept when the submitted value is
    missing or falsy, replaced when it is truthy. *)
Definition campo_apos_update {A} `{Truthy A}
  (enviado : option A) (anterior novo : A) : Prop :=
  match enviado with
  | None => novo = anterior
  | Some v => if truthy v then novo = v else novo = anterior
  end.

(** The [quantidade] column after an update: kept when the submitted value
    is missing or falsy (the empty string, the number 0), the submitted
    number when it is truthy, the integer the submitted string denotes when
    it is truthy (the string ["0"] is). *)
Definition quantidade_apos_update
  (enviado : option JsValor) (anterior novo : Z) : Prop :=
  match enviado with
  | None => novo = anterior
  | Some (JNumero n) => if truthy n then novo = n else novo = anterior
  | Some (JTexto s) =>
      if truthy s then ler_decimal s = Some novo else novo = anterior
  end.

(** What a submitted [quantidade] leaves in the column when it is missing,
    falsy, or one of the values that every store takes (a 32-bit integer or
    a decimal numeral of one); [None] for any other value. *)
Definition quantidade_enviada (enviado : option JsValor) (anterior : Z)
  : option Z :=
  match enviado with
  | None => Some anterior
  | Some (JNumero n) =>
      if truthy n then
        if decide (na_coluna_INTEGER n) then Some n else None
      else Some anterior
  | Some (JTexto s) =>
      if truthy s then
        n ← ler_decimal s;
        if decide (na_coluna_INTEGER n) then Some n else None
      else Some anterior
  end.

(** The same for [faixaEtaria]: missing, falsy, or one of the four values of
    the enumeration. *)
Definition faixaEtaria_enviada (enviado : option string) (anterior : string)
  : option string :=
  match enviado with
  | None => Some anterior
  | Some g =>
      if truthy g then
        if decide (g ∈ faixasEtarias) then Some g else None
      else Some anterior
  end.

(** A multipart update, sent with a cover file, whose [quantidade] field is
    the text [0]. *)
Definition corpo_multipart_zero : CorpoLivro :=
  {| req_titulo := None; req_autor := None;
     req_quantidade := Some (JTexto "0");
     req_editora := None; req_assunto := None; req_faixaEtaria := None |}.

(** An update with a new title and an age rating outside the enumeration. *)
Definition corpo_faixa_invalida : CorpoLivro :=
  {| req_titulo := Some "B"; req_autor := None; req_quantidade := None;
     req_editora := None; req_assunto := None;
     req_faixaEtaria := Some "Idoso" |}.

(** The scenario of the specification: title ["A"], update with
    [{titulo: "", autor: "B"}]. *)
Definition corpo_titulo_vazio : CorpoLivro :=
  {| req_titulo := Some ""; req_autor := Some "B"; req_quantidade := None;
     req_editora := None; req_assunto := None; req_faixaEtaria := None |}.

(** A store in which the only book has no copy left, and no loan exists. *)
Definition banco_esgotado : Banco :=
  atender_todos
    [Registrar corpo_ana; PostLivros (corpo_livro_A 0) None] banco_vazio.

(** A loan whose book is not in the catalogue. *)
Definition banco_livro_perdido : Banco :=
  {| Usuarios := Usuarios banco_emprestado;
     Livros := mkTabela ∅ 2;
     Emprestimos := Emprestimos banco_emprestado |}.

(** After one borrow of the single copy, an update that submits quantity 5. *)
Definition corpo_quantidade_5 : CorpoLivro :=
  {| req_titulo := None; req_autor := None;
     req_quantidade := Some (JNumero 5);
     req_editora := None; req_assunto := None; req_faixaEtaria := None |}.

(** No loan in the store has more than two renewals. *)
Definition limite_renovações (b : Banco) : Prop :=
  map_Forall (λ _ e, renovações e ≤ 2) (linhas (Emprestimos b)).

(** The loan of [banco_emprestado] after two renewals. *)
Definition banco_renovado_2x : Banco :=
  atender_todos [Renovar 1; Renovar 1] banco_emprestado.

Definition dois_inicio (b : Banco) : DoisPedidos :=
  {| primeiro := Inicio; segundo := Inicio; banco := b |}.

Definition agenda_alternada : list bool :=
  [true; false; true; false; true; false; true; false].

Definition agenda_primeiro_depois_segundo : list bool :=
  [true; true; true; true; false; false; false; false].

Definition agenda_segundo_depois_primeiro : list bool :=
  [false; false; false; false; true; true; true; true].

(** ** The listing routes *)

(** [Model.findAll({ where })]: the rows that satisfy the condition, in the
    store's order. *)
Definition findAll {A} (onde : A → bool) (t : Tabela A) : list (Z * A) :=
  filter (λ kv : Z * A, onde kv.2 = true) (map_to_list (linhas t)).

(** [GET /livros]: the body of the 200 response, every book with its key. *)
Definition getLivros (b : Banco) : list (Z * Livro) :=
  findAll (λ _, true) (Livros b).

(** A loan with the book that [include: [Livro]] joins to it; the join is an
    outer one, so a loan whose book does not resolve comes with [null]. *)
Record EmprestimoComLivro := mkEmprestimoComLivro {
  ecl_id : Z;
  ecl_emprestimo : Emprestimo;
  ecl_Livro : option Livro
}.

(** [GET /usuario/:usuarioId/emprestimos]: the body of the 200 response. *)
Definition getEmprestimosUsuario (usuarioId : Z) (b : Banco)
  : list EmprestimoComLivro :=
  (λ kv : Z * Emprestimo,
     {| ecl_id := kv.1; ecl_emprestimo := kv.2;
        ecl_Livro := linhas (Livros b) !! LivroId kv.2 |})
  <$> findAll (λ e, bool_decide (UsuarioId e = usuarioId)) (Emprestimos b).

(** The attributes [include] keeps of a user and of a book. *)
Record UsuarioResumo := mkUsuarioResumo {
  ur_nome : string;
  ur_email : string
}.

Record LivroResumo := mkLivroResumo {
  lr_titulo : string;
  lr_autor : string
}.

Record EmprestimoComUsuarioLivro := mkEmprestimoComUsuarioLivro {
  eul_id : Z;
  eul_emprestimo : Emprestimo;
  eul_Usuario : option UsuarioResumo;
  eul_Livro : option LivroResumo
}.

(** [GET /livros-alugados]: the body of the 200 response. *)
Definition getLivrosAlugados (b : Banco) : list EmprestimoComUsuarioLivro :=
  (λ kv : Z * Emprestimo,
     {| eul_id := kv.1; eul_emprestimo := kv.2;
        eul_Usuario :=
          (λ u, {| ur_nome := nome u; ur_email := email u |})
          <$> linhas (Usuarios b) !! UsuarioId kv.2;
        eul_Livro :=
          (λ l, {| lr_titulo := titulo l; lr_autor := autor l |})
          <$> linhas (Livros b) !! LivroId kv.2 |})
  <$> findAll (λ _, true) (Emprestimos b).

(** ** Further rows and predicates used in the statements *)

(** The row [PUT /usuarios/:id] computes from the stored one. *)
Definition usuario_atualizado (body : CorpoUsuario) (u : Usuario) : Usuario :=
  {| nome := js_or (req_nome body) (nome u);
     email := js_or (req_email body) (email u);
     senha := js_or (req_senha body) (senha u) |}.

(** No two user rows have the same e-mail. *)
Definition emails_unicos (b : Banco) : Prop :=
  ∀ k1 k2 u1 u2,
    linhas (Usuarios b) !! k1 = Some u1 →
    linhas (Usuarios b) !! k2 = Some u2 →
    email u1 = email u2 → k1 = k2.

(** Every loan references a user and a book of the store. *)
Definition referencias_validas (b : Banco) : Prop :=
  map_Forall
    (λ _ e, is_Some (linhas (Usuarios b) !! UsuarioId e)
            ∧ is_Some (linhas (Livros b) !! LivroId e))
    (linhas (Emprestimos b)).

(** No book has a negative quantity. *)
Definition quantidades_nao_negativas (b : Banco) : Prop :=
  map_Forall (λ _ l, 0 ≤ quantidade l) (linhas (Livros b)).

(** The requests of the lending engine. *)
Definition do_motor (p : Pedido) : bool :=
  match p with
  | Alugar _ _ _ | Devolver _ | Renovar _ => true
  | _ => false
  end.

(** A store in which Ana has borrowed, renewed once and nothing else. *)
Definition banco_renovado_1x : Banco :=
  atender_todos [Renovar 1] banco_emprestado.

Definition corpo_sem_senha : CorpoUsuario :=
  {| req_nome := Some "Eva"; req_email := Some "eva@exemplo.br";
     req_senha := None |}.

Definition corpo_eva : CorpoUsuario :=
  {| req_nome := Some "Eva"; req_email := Some "eva@exemplo.br";
     req_senha := Some "x" |}.

Definition corpo_senha_vazia : CorpoUsuario :=
  {| req_nome := None; req_email := None; req_senha := Some "" |}.

Definition corpo_email_de_rui : CorpoUsuario :=
  {| req_nome := None; req_email := Some "rui@exemplo.br";
     req_senha := None |}.

Definition corpo_livro_sem_titulo : CorpoLivro :=
  {| req_titulo := None; req_autor := Some "Autor";
     req_quantidade := Some (JNumero 1); req_editora := Some "Editora";
     req_assunto := Some "Romance"; req_faixaEtaria := Some "Livre" |}.

(** How a request may change the table of users or of books: not at all,
    by rewriting one existing row, or by inserting a row under the next
    key.  No route deletes a user or a book. *)
Inductive evolui {A} (t t' : Tabela A) : Prop :=
| ev_igual : t' = t → evolui t t'
| ev_altera k row row' :
    linhas t !! k = Some row →
    t' = mkTabela (<[k := row']> (linhas t)) (autoIncrement t) →
    evolui t t'
| ev_cria row :
    t' = mkTabela (<[autoIncrement t := row]> (linhas t))
                  (autoIncrement t + 1) →
    evolui t t'.

(** * Properties *)

(** ** What [save] writes *)

Section SequelizeLemas.
Context {A Attr : Type} `{Modelo A Attr} `{EqDecision A}.
Implicit Types (i : Instancia A Attr) (row : A) (t : Tabela A).

Lemma ler_foldr_copiar (a : Attr) (de row : A) (l : list Attr) :
  ler a (foldr (λ c r, copiar c de r) row l)
  = if decide (a ∈ l) then ler a de else ler a row.
Proof.
  induction l as [|c l IH]; simpl.
  - destruct (decide (a ∈ [])) as [Hin|_]; [|done].
    by apply elem_of_nil in Hin.
  - rewrite ler_copiar. destruct (decide (a = c)) as [->|Hne].
    + rewrite decide_True; [done | apply elem_of_cons; by left].
    + rewrite IH. destruct (decide (a ∈ l)) as [Hin|Hin].
      * rewrite decide_True; [done | apply elem_of_cons; by right].
      * rewrite decide_False; [done |].
        intros [?|?]%elem_of_cons; done.
Qed.

Lemma linha_gravada_coerente i row :
  coerente i row → linha_gravada i row = dataValues i.
Proof.
  intros Hc. apply ler_ext. intros a. unfold linha_gravada.
  rewrite ler_foldr_copiar. case_decide; [done | symmetry; by apply Hc].
Qed.

Lemma coerente_carregada k row : coerente (mkInstancia k row []) row.
Proof. by intros a _. Qed.

(** An assignment through the setter keeps the instance coherent, as long
    as the update touches the named attribute only. *)
Lemma coerente_setAttr a f i row :
  (∀ c v, c ≠ a → ler c (f v) = ler c v) →
  coerente i row → coerente (setAttr a f i) row.
Proof.
  intros Hf Hc c. unfold setAttr; simpl.
  destruct (decide (f (dataValues i) = dataValues i)) as [Heq|Hne].
  - rewrite Heq. apply Hc.
  - intros Hnin. apply not_elem_of_cons in Hnin as [Hca Hnin].
    rewrite Hf by done. by apply Hc.
Qed.

Lemma save_coerente i t row :
  linhas t !! pk i = Some row → coerente i row →
  save i t = mkTabela (<[pk i := dataValues i]> (linhas t))
                      (autoIncrement t).
Proof.
  intros Hrow Hc. unfold save. rewrite Hrow.
  by rewrite linha_gravada_coerente.
Qed.
End SequelizeLemas.

Lemma so_titulo c v l : c ≠ ATitulo → ler c (com_titulo v l) = ler c l.
Proof. by destruct c. Qed.
Lemma so_autor c v l : c ≠ AAutor → ler c (com_autor v l) = ler c l.
Proof. by destruct c. Qed.
Lemma so_quantidade c v l :
  c ≠ AQuantidade → ler c (com_quantidade v l) = ler c l.
Proof. by destruct c. Qed.
Lemma so_editora c v l : c ≠ AEditora → ler c (com_editora v l) = ler c l.
Proof. by destruct c. Qed.
Lemma so_assunto c v l : c ≠ AAssunto → ler c (com_assunto v l) = ler c l.
Proof. by destruct c. Qed.
Lemma so_faixaEtaria c v l :
  c ≠ AFaixaEtaria → ler c (com_faixaEtaria v l) = ler c l.
Proof. by destruct c. Qed.
Lemma so_imagem c v l : c ≠ AImagem → ler c (com_imagem v l) = ler c l.
Proof. by destruct c. Qed.

(** Saving a freshly loaded book after one assignment to [quantidade]. *)
Lemma save_quantidade (t : Tabela Livro) k livro q :
  linhas t !! k = Some livro →
  save (setAttr AQuantidade (com_quantidade q) (mkInstancia k livro [])) t
  = mkTabela (<[k := com_quantidade q livro]> (linhas t)) (autoIncrement t).
Proof.
  intros Hk.
  rewrite (save_coerente _ _ livro); [done | done |].
  apply coerente_setAttr; [intros; by apply so_quantidade |].
  apply coerente_carregada.
Qed.

(** ** The handlers as equations *)

Lemma alugar_sucesso `{!Ambiente} agora u l b usuario livro :
  linhas (Usuarios b) !! u = Some usuario →
  linhas (Livros b) !! l = Some livro →
  0 < quantidade livro →
  alugar agora u l b =
    ({| Usuarios := Usuarios b;
        Livros := mkTabela
          (<[l := com_quantidade (quantidade livro - 1) livro]>
             (linhas (Livros b)))
          (autoIncrement (Livros b));
        Emprestimos := mkTabela
          (<[autoIncrement (Emprestimos b) := emprestimo_novo agora u l]>
             (linhas (Emprestimos b)))
          (autoIncrement (Emprestimos b) + 1) |},
     {| status := 201;
        corpo := JEmprestimo (autoIncrement (Emprestimos b))
                   (emprestimo_novo agora u l) |}).
Proof.
  intros Hu Hl Hq. unfold alugar, findByPk. rewrite Hu, Hl. simpl.
  destruct (Z.ltb_spec 0 (quantidade livro)); [|lia].
  by rewrite save_quantidade.
Qed.

Lemma alugar_falha `{!Ambiente} agora u l b :
  linhas (Usuarios b) !! u = None ∨ linhas (Livros b) !! l = None
  ∨ (∃ livro, linhas (Livros b) !! l = Some livro ∧ quantidade livro ≤ 0) →
  alugar agora u l b = (b, erro400 msg_alugar).
Proof.
  unfold alugar, findByPk.
  intros [Hu | [Hl | (livro & Hl & Hq)]].
  - rewrite Hu. simpl. by destruct (linhas (Livros b) !! l).
  - rewrite Hl. simpl. by destruct (linhas (Usuarios b) !! u).
  - rewrite Hl. simpl. destruct (linhas (Usuarios b) !! u); simpl; [|done].
    by destruct (Z.ltb_spec 0 (quantidade livro)); [lia|].
Qed.

Lemma devolver_sucesso k b e livro :
  linhas (Emprestimos b) !! k = Some e →
  linhas (Livros b) !! LivroId e = Some livro →
  devolver k b =
    ({| Usuarios := Usuarios b;
        Livros := mkTabela
          (<[LivroId e := com_quantidade (quantidade livro + 1) livro]>
             (linhas (Livros b)))
          (autoIncrement (Livros b));
        Emprestimos := mkTabela (delete k (linhas (Emprestimos b)))
                                (autoIncrement (Emprestimos b)) |},
     {| status := 200; corpo := JMensagem "Livro devolvido com sucesso" |}).
Proof.
  intros He Hl. unfold devolver, findByPk. rewrite He. simpl.
  rewrite Hl. simpl. by rewrite save_quantidade.
Qed.

Lemma devolver_sem_emprestimo k b :
  linhas (Emprestimos b) !! k = None →
  devolver k b = (b, erro400 "ID de empréstimo inválido").
Proof. intros He. unfold devolver, findByPk. by rewrite He. Qed.

Lemma devolver_sem_livro k b e :
  linhas (Emprestimos b) !! k = Some e →
  linhas (Livros b) !! LivroId e = None →
  devolver k b = (b, erro400 "Livro não encontrado").
Proof.
  intros He Hl. unfold devolver, findByPk. rewrite He. simpl. by rewrite Hl.
Qed.

Lemma renovar_sucesso `{!Ambiente} k b e :
  linhas (Emprestimos b) !! k = Some e →
  renovações e < 2 →
  renovar k b =
    ({| Usuarios := Usuarios b; Livros := Livros b;
        Emprestimos := mkTabela
          (<[k := com_renovações (renovações e + 1) e]>
             (linhas (Emprestimos b)))
          (autoIncrement (Emprestimos b)) |},
     {| status := 200; corpo := JMensagem "Livro renovado com sucesso!" |}).
Proof.
  intros He Hr. unfold renovar, findByPk. rewrite He. simpl.
  destruct (Z.ltb_spec (renovações e) 2); [|lia].
  unfold save, renovar_instancia, setAttr, mutar, linha_gravada. simpl.
  rewrite He.
  destruct (decide (com_renovações (renovações e + 1) e = e)) as [Heq|_].
  - apply (f_equal renovações) in Heq. simpl in Heq. lia.
  - done.
Qed.

Lemma renovar_falha `{!Ambiente} k b :
  linhas (Emprestimos b) !! k = None
  ∨ (∃ e, linhas (Emprestimos b) !! k = Some e ∧ 2 ≤ renovações e) →
  renovar k b = (b, erro400 "Não é possível renovar mais vezes").
Proof.
  unfold renovar, findByPk. intros [He | (e & He & Hr)]; rewrite He; simpl.
  - done.
  - by destruct (Z.ltb_spec (renovações e) 2); [lia|].
Qed.

Lemma dataValues_atribuir_livro body file q f k livro :
  dataValues (atribuir_livro body file q f (mkInstancia k livro []))
  = livro_atualizado body file q f livro.
Proof. destruct file; reflexivity. Qed.

Lemma pk_atribuir_livro body file q f i :
  pk (atribuir_livro body file q f i) = pk i.
Proof. by destruct file. Qed.

Lemma coerente_atribuir_livro body file q f k livro :
  coerente (atribuir_livro body file q f (mkInstancia k livro [])) livro.
Proof.
  unfold atribuir_livro. cbv zeta.
  assert (∀ i : Instancia Livro AttrLivro, coerente i livro →
            coerente (match file with
                      | Some filename =>
                          setAttr AImagem (com_imagem (Some filename)) i
                      | None => i
                      end) livro) as Hfile.
  { intros i Hi. destruct file; [|done].
    apply coerente_setAttr; [intros; by apply so_imagem | done]. }
  apply Hfile.
  apply coerente_setAttr; [intros; by apply so_faixaEtaria |].
  apply coerente_setAttr; [intros; by apply so_assunto |].
  apply coerente_setAttr; [intros; by apply so_editora |].
  apply coerente_setAttr; [intros; by apply so_quantidade |].
  apply coerente_setAttr; [intros; by apply so_autor |].
  apply coerente_setAttr; [intros; by apply so_titulo |].
  apply coerente_carregada.
Qed.

Lemma putLivros_sucesso `{!Ambiente} k body file b livro q f :
  linhas (Livros b) !! k = Some livro →
  quantidade_atribuida (req_quantidade body) (quantidade livro) = Some q →
  faixaEtaria_atribuida (req_faixaEtaria body) (faixaEtaria livro) = Some f →
  putLivros k body file b =
    ({| Usuarios := Usuarios b;
        Livros := mkTabela
          (<[k := livro_atualizado body file q f livro]> (linhas (Livros b)))
          (autoIncrement (Livros b));
        Emprestimos := Emprestimos b |},
     {| status := 200;
        corpo := JLivro k (livro_atualizado body file q f livro) |}).
Proof.
  intros Hl Hq Hf. unfold putLivros, findByPk. rewrite Hl. simpl.
  rewrite Hq, Hf.
  rewrite (save_coerente _ _ livro).
  - by rewrite pk_atribuir_livro, dataValues_atribuir_livro.
  - by rewrite pk_atribuir_livro.
  - apply coerente_atribuir_livro.
Qed.

Lemma putLivros_falha `{!Ambiente} k body file b :
  linhas (Livros b) !! k = None →
  putLivros k body file b =
    (b, {| status := 404; corpo := JErro "Livro não encontrado" |}).
Proof. intros Hl. unfold putLivros, findByPk. by rewrite Hl. Qed.

Lemma putLivros_recusado `{!Ambiente} k body file b livro :
  linhas (Livros b) !! k = Some livro →
  quantidade_atribuida (req_quantidade body) (quantidade livro) = None
  ∨ faixaEtaria_atribuida (req_faixaEtaria body) (faixaEtaria livro) = None →
  putLivros k body file b =
    (b, {| status := 500; corpo := JErroExcecao "Erro no servidor: " |}).
Proof.
  intros Hl Hn. unfold putLivros, findByPk. rewrite Hl. simpl.
  destruct Hn as [-> | ->]; [done|].
  by destruct (quantidade_atribuida _ _).
Qed.

Lemma putLivros_casos `{!Ambiente} k body file b :
  (putLivros k body file b).1 = b
  ∨ ∃ livro q f,
      linhas (Livros b) !! k = Some livro
      ∧ quantidade_atribuida (req_quantidade body) (quantidade livro) = Some q
      ∧ faixaEtaria_atribuida (req_faixaEtaria body) (faixaEtaria livro)
        = Some f.
Proof.
  destruct (linhas (Livros b) !! k) as [livro|] eqn:Hl;
    [|left; by rewrite putLivros_falha].
  destruct (quantidade_atribuida (req_quantidade body) (quantidade livro))
    as [q|] eqn:Hq;
    [|left; rewrite (putLivros_recusado _ _ _ _ livro); auto].
  destruct (faixaEtaria_atribuida (req_faixaEtaria body) (faixaEtaria livro))
    as [f|] eqn:Hf;
    [|left; rewrite (putLivros_recusado _ _ _ _ livro); auto].
  right. eauto 6.
Qed.

Lemma quantidade_enviada_atribuida `{!Ambiente} enviado anterior q :
  quantidade_enviada enviado anterior = Some q →
  quantidade_atribuida enviado anterior = Some q.
Proof.
  destruct enviado as [[s|n]|]; simpl; [| |done].
  - change (truthy (JTexto s)) with (truthy s).
    destruct (truthy s); [|done].
    destruct (ler_decimal s) as [m|] eqn:Hs; simpl; [|done].
    case_decide as Hm; [|done]. intros [= <-].
    by apply coluna_inteiro_texto.
  - change (truthy (JNumero n)) with (truthy n).
    destruct (truthy n); [|done].
    case_decide as Hn; [|done]. intros [= <-].
    case_decide as Heq; [by simplify_eq | by apply coluna_inteiro_numero].
Qed.

Lemma quantidade_enviada_apos_update enviado anterior q :
  quantidade_enviada enviado anterior = Some q →
  quantidade_apos_update enviado anterior q.
Proof.
  destruct enviado as [[s|n]|]; simpl; [| |by intros [= <-]].
  - destruct (truthy s); [|by intros [= <-]].
    destruct (ler_decimal s) as [m|]; simpl; [|done].
    case_decide; [|done]. by intros [= <-].
  - destruct (truthy n); [|by intros [= <-]].
    case_decide; [|done]. by intros [= <-].
Qed.

Lemma faixaEtaria_enviada_atribuida `{!Ambiente} enviado anterior f :
  faixaEtaria_enviada enviado anterior = Some f →
  faixaEtaria_atribuida enviado anterior = Some f.
Proof.
  destruct enviado as [g|]; simpl; [|done].
  destruct (truthy g); [|done].
  case_decide as Hg; [|done]. intros [= <-].
  case_decide as Heq; [by rewrite Heq | by apply coluna_faixaEtaria_valida].
Qed.

Lemma faixaEtaria_enviada_apos_update enviado anterior f :
  faixaEtaria_enviada enviado anterior = Some f →
  campo_apos_update enviado anterior f.
Proof.
  destruct enviado as [g|]; simpl; [|by intros [= <-]].
  destruct (truthy g); [|by intros [= <-]].
  case_decide; [|done]. by intros [= <-].
Qed.

Lemma alcancavel_atender_todos `{!Ambiente} ps b :
  alcancavel b → alcancavel (atender_todos ps b).
Proof.
  revert b. induction ps as [|p ps IH]; intros b Hb; [done|].
  apply IH. by constructor.
Qed.

(** ** Catalogue update *)

Lemma campo_apos_update_js_or {A} `{Truthy A} (x : option A) (y : A) :
  campo_apos_update x y (js_or x y).
Proof. destruct x as [v|]; simpl; [|done]. by destruct (truthy v). Qed.

(** C8, as the specification states it, fails on two kinds of request.  A
    multipart update (the only kind that can carry a cover file) submits
    every field as a string: its quantity 0 is the truthy string ["0"], and
    the stored quantity 1 is overwritten by 0.  And when the store refuses
    a submitted value, here an age rating outside the enumeration, [save]
    throws: the answer is 500 and the truthy title ["B"] does not replace
    the stored ["A"]. *)
Lemma C8_update_counterexample :
  quantidade <$> linhas (Livros banco_um_exemplar) !! 1 = Some 1
  ∧ quantidade
    <$> linhas (Livros (putLivros 1 corpo_multipart_zero (Some "capa.png")
                          banco_um_exemplar).1) !! 1
    = Some 0
  ∧ truthy "B" = true
  ∧ status (putLivros 1 corpo_faixa_invalida None banco_um_exemplar).2 = 500
  ∧ titulo
    <$> linhas (Livros (putLivros 1 corpo_faixa_invalida None
                          banco_um_exemplar).1) !! 1
    = Some "A".
Proof. repeat split; vm_compute; reflexivity. Qed.

(** C8 (amended).  [PUT /livros/:id] on an existing book, when the submitted
    [quantidade] is missing, falsy, a 32-bit integer or a decimal numeral
    of one, and the submitted [faixaEtaria] is missing, falsy or one of the
    four values of the enumeration, answers 200 with the row it stores, in
    which each of [titulo], [autor], [editora], [assunto], [faixaEtaria]
    keeps its prior value when the submitted value is missing or the empty
    string and takes the submitted value otherwise, and [quantidade] keeps
    its prior value when the submitted value is missing, the empty string
    or the number 0, and otherwise becomes the submitted number or the
    integer the submitted string denotes (the string ["0"] is truthy). *)
Theorem C8_update_keeps_falsy_fields `{!Ambiente} k body file b livro q f
  (Hlivro : linhas (Livros b) !! k = Some livro)
  (Hq : quantidade_enviada (req_quantidade body) (quantidade livro) = Some q)
  (Hf : faixaEtaria_enviada (req_faixaEtaria body) (faixaEtaria livro)
        = Some f) :
  truthy "" = false ∧ truthy 0 = false ∧ truthy (JTexto "0") = true ∧
  ∃ novo,
    linhas (Livros (putLivros k body file b).1) !! k = Some novo
    ∧ (putLivros k body file b).2 = {| status := 200; corpo := JLivro k novo |}
    ∧ campo_apos_update (req_titulo body) (titulo livro) (titulo novo)
    ∧ campo_apos_update (req_autor body) (autor livro) (autor novo)
    ∧ quantidade_apos_update (req_quantidade body) (quantidade livro)
        (quantidade novo)
    ∧ campo_apos_update (req_editora body) (editora livro) (editora novo)
    ∧ campo_apos_update (req_assunto body) (assunto livro) (assunto novo)
    ∧ campo_apos_update (req_faixaEtaria body) (faixaEtaria livro)
        (faixaEtaria novo).
Proof.
  split; [done|]. split; [done|]. split; [done|].
  exists (livro_atualizado body file q f livro).
  rewrite (putLivros_sucesso _ _ _ _ livro q f Hlivro)
    by (by apply quantidade_enviada_atribuida
        || by apply faixaEtaria_enviada_atribuida).
  simpl. rewrite lookup_insert_eq.
  repeat split; try apply campo_apos_update_js_or.
  - by apply quantidade_enviada_apos_update.
  - by apply faixaEtaria_enviada_apos_update.
Qed.

Lemma C8_update_keeps_falsy_fields_witness :
  ∃ novo,
    linhas (Livros (putLivros 1 corpo_titulo_vazio None banco_um_exemplar).1)
      !! 1 = Some novo
    ∧ titulo novo = "A" ∧ autor novo = "B" ∧ quantidade novo = 1.
Proof.
  destruct (C8_update_keeps_falsy_fields 1 corpo_titulo_vazio None
              banco_um_exemplar
              (mkLivro "A" "Autor" 1 "Editora" "Romance" "Livre" None)
              1 "Livre")
    as (_ & _ & _ & novo & Hn & _ & Ht & Ha & Hq & _).
  - vm_compute. reflexivity.
  - reflexivity.
  - reflexivity.
  - exists novo. split; [exact Hn|]. simpl in Ht, Ha, Hq. auto.
Defined.

(** ** Borrow *)

(** C7, as the specification states it, fails when the seven days cross a
    change of the server's clock.  On New York time, a borrow at
    2024-03-07T12:00:00Z (07:00 local) is due at 07:00 local seven calendar
    days later, which is 2024-03-14T11:00:00Z: the current time plus seven
    days less one hour. *)
Lemma C7_daylight_saving_counterexample :
  ∃ e,
    (@alugar ambiente_Nova_Iorque 1709812800000 1 1 banco_um_exemplar).2
    = {| status := 201; corpo := JEmprestimo 1 e |}
    ∧ dataVencimento e = 1709812800000 + 601200000
    ∧ dataVencimento e ≠ 1709812800000 + 7 * 86400000.
Proof.
  eexists. split; [vm_compute; reflexivity|].
  split; [vm_compute; reflexivity | vm_compute; discriminate].
Qed.

(** C7 (amended).  When the user and the book resolve and the book's
    quantity is positive, [POST /alugar] answers 201 with the loan it
    created: one new row, under a key that was free, for that user and book,
    with no renewal and due at the instant at which the server's local
    clock shows the current local time of day seven calendar days later,
    which is the current time plus seven times 24 hours whenever the offset
    of local time from UTC is the same at both ends; the book's quantity
    goes down by one, and nothing else in the store changes.  The loan keys
    are below the counter of the table, as they are in every store the
    server can reach ([chaves_abaixo_alcancavel]). *)
Theorem C7_borrow_success `{!Ambiente} agora u l b usuario livro
  (Hkeys : chaves_abaixo (Emprestimos b))
  (Hu : linhas (Usuarios b) !! u = Some usuario)
  (Hl : linhas (Livros b) !! l = Some livro)
  (Hq : 0 < quantidade livro) :
  ∃ k e,
    (alugar agora u l b).2 = {| status := 201; corpo := JEmprestimo k e |}
    ∧ linhas (Emprestimos b) !! k = None
    ∧ linhas (Emprestimos (alugar agora u l b).1)
      = <[k := e]> (linhas (Emprestimos b))
    ∧ UsuarioId e = u ∧ LivroId e = l
    ∧ dataVencimento e = UTC (LocalTime agora + 7 * 86400000)
    ∧ (LocalTZA (LocalTime agora + 7 * 86400000) false = LocalTZA agora true →
       dataVencimento e = agora + 7 * 86400000)
    ∧ renovações e = 0
    ∧ linhas (Livros (alugar agora u l b).1)
      = <[l := com_quantidade (quantidade livro - 1) livro]>
          (linhas (Livros b))
    ∧ Usuarios (alugar agora u l b).1 = Usuarios b.
Proof.
  rewrite (alugar_sucesso _ _ _ _ _ _ Hu Hl Hq). simpl.
  exists (autoIncrement (Emprestimos b)), (emprestimo_novo agora u l).
  repeat split.
  - destruct (linhas (Emprestimos b) !! autoIncrement (Emprestimos b))
      as [e|] eqn:He; [|done].
    apply Hkeys in He. lia.
  - intros Hoff. simpl. unfold setDate_mais, UTC, LocalTime, msPerDay in *.
    rewrite Hoff. lia.
Qed.

Lemma chaves_abaixo_vazio {A} n : chaves_abaixo (A := A) (mkTabela ∅ n).
Proof. apply map_Forall_empty. Qed.

Lemma C7_borrow_success_witness :
  ∃ k e,
    (alugar 1000 1 1 banco_um_exemplar).2
    = {| status := 201; corpo := JEmprestimo k e |}
    ∧ dataVencimento e = 604801000 ∧ renovações e = 0.
Proof.
  destruct (C7_borrow_success 1000 1 1 banco_um_exemplar
              (mkUsuario "Ana" "ana@exemplo.br" "segredo")
              (mkLivro "A" "Autor" 1 "Editora" "Romance" "Livre" None))
    as (k & e & Hr & _ & _ & _ & _ & _ & Hd & Hn & _).
  - apply chaves_abaixo_vazio.
  - vm_compute. reflexivity.
  - vm_compute. reflexivity.
  - simpl. lia.
  - exists k, e. split; [exact Hr|]. split; [|exact Hn].
    apply Hd. reflexivity.
Defined.

(** C2, as the specification states it, asks for two distinct error kinds.
    The handler has a single [else] branch: a borrow by an unknown user and
    a borrow of a book without copies receive the very same response. *)
Lemma C2_same_response_counterexample :
  linhas (Usuarios banco_esgotado) !! 7 = None
  ∧ (∃ usuario livro,
       linhas (Usuarios banco_esgotado) !! 1 = Some usuario
       ∧ linhas (Livros banco_esgotado) !! 1 = Some livro
       ∧ quantidade livro = 0)
  ∧ ¬ (alugar 1000 7 1 banco_esgotado).2 ≠ (alugar 1000 1 1 banco_esgotado).2.
Proof.
  split; [vm_compute; reflexivity|]. split.
  - eexists _, _. vm_compute. repeat split.
  - intros Hne. apply Hne. vm_compute. reflexivity.
Qed.

(** C2 (amended).  When the user id or the book id does not resolve, or both
    resolve and the book's quantity is 0, [POST /alugar] answers with status
    400 and the one message of its [else] branch, and the store is left as
    it was. *)
Theorem C2_borrow_failure `{!Ambiente} agora u l b
  (Hfalha : linhas (Usuarios b) !! u = None
            ∨ linhas (Livros b) !! l = None
            ∨ ∃ livro, linhas (Livros b) !! l = Some livro
                       ∧ quantidade livro = 0) :
  alugar agora u l b =
    (b, {| status := 400;
           corpo := JErro
             "Usuário ou livro inválido, ou livro não disponível" |}).
Proof.
  apply alugar_falha.
  destruct Hfalha as [Hu | [Hl | (livro & Hl & Hq)]]; [by left | by right; left |].
  right; right. exists livro. split; [done | lia].
Qed.

Lemma C2_borrow_failure_witness :
  alugar 1000 1 1 banco_esgotado = (banco_esgotado, erro400 msg_alugar).
Proof.
  apply (C2_borrow_failure 1000 1 1 banco_esgotado).
  right; right.
  exists (mkLivro "A" "Autor" 0 "Editora" "Romance" "Livre" None).
  split; [vm_compute; reflexivity | reflexivity].
Defined.

(** ** Return *)



(** C6.  When the loan exists and its book does not resolve,
    [DELETE /devolver] answers with an error (status 400, book not found)
    and the store is left as it was: the loan row stays and no quantity
    changes. *)
Theorem C6_return_missing_book k b e
  (He : linhas (Emprestimos b) !! k = Some e)
  (Hl : linhas (Livros b) !! LivroId e = None) :
  devolver k b
  = (b, {| status := 400; corpo := JErro "Livro não encontrado" |})
  ∧ linhas (Emprestimos (devolver k b).1) !! k = Some e
  ∧ Livros (devolver k b).1 = Livros b.
Proof.
  rewrite (devolver_sem_livro _ _ _ He Hl). by simpl.
Qed.

Lemma C6_return_missing_book_witness :
  devolver 1 banco_livro_perdido
  = (banco_livro_perdido, erro400 "Livro não encontrado").
Proof.
  destruct (C6_return_missing_book 1 banco_livro_perdido
              (emprestimo_novo 1000 1 1)) as (Hr & _).
  - vm_compute. reflexivity.
  - vm_compute. reflexivity.
  - exact Hr.
Defined.

(** ** Quantity plus open loans *)

Section Contagem.
Variable l : Z.
Implicit Types (m : gmap Z Emprestimo) (e : Emprestimo).

Local Abbreviation do_livro := (λ kv : Z * Emprestimo, LivroId kv.2 = l).

Lemma conta_insert_novo m k e :
  m !! k = None →
  size (filter do_livro (<[k := e]> m))
  = if decide (LivroId e = l) then S (size (filter do_livro m))
    else size (filter do_livro m).
Proof.
  intros Hk. rewrite map_filter_insert. simpl.
  destruct (decide (LivroId e = l)) as [Heq|Hne].
  - apply map_size_insert_None. by rewrite map_lookup_filter, Hk.
  - by rewrite delete_id.
Qed.

Lemma conta_insert_mesmo_livro m k e e' :
  m !! k = Some e → LivroId e' = LivroId e →
  size (filter do_livro (<[k := e']> m)) = size (filter do_livro m).
Proof.
  intros Hk Hl. rewrite map_filter_insert. simpl.
  destruct (decide (LivroId e' = l)) as [Heq|Hne].
  - apply map_size_insert_Some. exists e.
    apply map_lookup_filter_Some. split; [done | simpl; congruence].
  - rewrite map_filter_delete. apply map_size_delete_None.
    apply map_lookup_filter_None. right. intros e0 He0. simpl. congruence.
Qed.

Lemma conta_delete m k e :
  m !! k = Some e →
  size (filter do_livro m)
  = if decide (LivroId e = l) then S (size (filter do_livro (delete k m)))
    else size (filter do_livro (delete k m)).
Proof.
  intros Hk. rewrite map_filter_delete.
  destruct (decide (LivroId e = l)) as [Heq|Hne].
  - assert (filter do_livro m !! k = Some e) as Hf
      by (by apply map_lookup_filter_Some).
    rewrite map_size_delete, Hf.
    assert (size (filter do_livro m) ≠ 0%nat)
      by (by eapply map_size_ne_0_lookup_2).
    simpl. lia.
  - symmetry. apply map_size_delete_None.
    apply map_lookup_filter_None. right. intros e0 He0. simpl. congruence.
Qed.
End Contagem.

Lemma saldo_alugar `{!Ambiente} agora u l b k :
  chaves_abaixo (Emprestimos b) →
  saldo k (alugar agora u l b).1 = saldo k b.
Proof.
  intros Hkeys.
  destruct (linhas (Usuarios b) !! u) as [usuario|] eqn:Hu;
    [|rewrite alugar_falha; auto].
  destruct (linhas (Livros b) !! l) as [livro|] eqn:Hl;
    [|rewrite alugar_falha; auto].
  destruct (decide (0 < quantidade livro)) as [Hq|Hq];
    [|rewrite alugar_falha; [done|]; right; right; exists livro;
      split; [done|lia]].
  rewrite (alugar_sucesso _ _ _ _ _ _ Hu Hl Hq).
  unfold saldo, emprestimos_do_livro. simpl.
  assert (linhas (Emprestimos b) !! autoIncrement (Emprestimos b) = None)
    as Hnovo.
  { destruct (linhas (Emprestimos b) !! autoIncrement (Emprestimos b))
      as [e|] eqn:He; [|done]. apply Hkeys in He. lia. }
  rewrite conta_insert_novo by done. simpl.
  destruct (decide (l = k)) as [->|Hne].
  - rewrite lookup_insert_eq, Hl. simpl. f_equal. lia.
  - by rewrite lookup_insert_ne.
Qed.

Lemma saldo_renovar `{!Ambiente} e b k : saldo k (renovar e b).1 = saldo k b.
Proof.
  destruct (linhas (Emprestimos b) !! e) as [emp|] eqn:He;
    [|rewrite renovar_falha; auto].
  destruct (decide (renovações emp < 2)) as [Hr|Hr];
    [|rewrite renovar_falha; [done|]; right; exists emp; split; [done|lia]].
  rewrite (renovar_sucesso _ _ _ He Hr).
  unfold saldo, emprestimos_do_livro. simpl.
  by rewrite (conta_insert_mesmo_livro _ _ _ emp).
Qed.

Lemma saldo_devolver e b k : saldo k (devolver e b).1 = saldo k b.
Proof.
  destruct (linhas (Emprestimos b) !! e) as [emp|] eqn:He;
    [|by rewrite devolver_sem_emprestimo].
  destruct (linhas (Livros b) !! LivroId emp) as [livro|] eqn:Hl;
    [|by rewrite (devolver_sem_livro _ _ emp)].
  rewrite (devolver_sucesso _ _ _ _ He Hl).
  unfold saldo, emprestimos_do_livro. simpl.
  rewrite (conta_delete k _ _ _ He).
  destruct (decide (LivroId emp = k)) as [<-|Hne].
  - rewrite lookup_insert_eq, Hl. simpl. f_equal. lia.
  - by rewrite lookup_insert_ne.
Qed.

Lemma saldo_putLivros_sucesso `{!Ambiente} l body file b k livro q f :
  linhas (Livros b) !! l = Some livro →
  quantidade_atribuida (req_quantidade body) (quantidade livro) = Some q →
  faixaEtaria_atribuida (req_faixaEtaria body) (faixaEtaria livro) = Some f →
  saldo k (putLivros l body file b).1
  = if decide (k = l)
    then Some (q + Z.of_nat (size (emprestimos_do_livro l b)))
    else saldo k b.
Proof.
  intros Hl Hq Hf. rewrite (putLivros_sucesso _ _ _ _ _ _ _ Hl Hq Hf).
  unfold saldo, emprestimos_do_livro. simpl.
  destruct (decide (k = l)) as [->|Hne].
  - by rewrite lookup_insert_eq.
  - by rewrite lookup_insert_ne.
Qed.

Lemma putLivros_nao_200 `{!Ambiente} l body file b :
  status (putLivros l body file b).2 ≠ 200 → (putLivros l body file b).1 = b.
Proof.
  destruct (putLivros_casos l body file b) as [Hb|(livro & q & f & Hl & Hq & Hf)];
    [done|].
  by rewrite (putLivros_sucesso _ _ _ _ _ _ _ Hl Hq Hf).
Qed.

(** C1, as the specification states it, fails at the book update.  The book
    was created with quantity 1 and has one open loan (quantity 0 plus one
    loan); after an update that submits quantity 5 the quantity is 5 and the
    loan is still open: the sum is 6, which is neither the former sum nor the
    submitted quantity. *)
Lemma C1_update_counterexample :
  alcancavel banco_emprestado
  ∧ saldo 1 banco_um_exemplar = Some 1
  ∧ saldo 1 banco_emprestado = Some 1
  ∧ saldo 1 (putLivros 1 corpo_quantidade_5 None banco_emprestado).1 = Some 6
  ∧ saldo 1 (putLivros 1 corpo_quantidade_5 None banco_emprestado).1
    ≠ saldo 1 banco_emprestado.
Proof.
  split; [repeat apply alcancavel_atender_todos; constructor|].
  repeat split; try (vm_compute; reflexivity).
  vm_compute. discriminate.
Qed.

(** C1 (amended).  The requests are served one after the other, in a store
    whose loan keys are below the counter (every store the server can reach,
    [chaves_abaixo_alcancavel]).  Borrow, renew and return leave, for every
    book, its quantity plus the number of open loans on it unchanged.  A
    book update that is not answered 200 changes nothing.  A book update
    whose submitted [quantidade] is missing, falsy, a 32-bit integer or a
    decimal numeral of one, and whose submitted [faixaEtaria] is missing,
    falsy or one of the four values of the enumeration, leaves the sum of
    every other book unchanged and makes the sum of the updated book the
    quantity it stores plus the number of open loans on it; the stored
    quantity is the prior one when the submitted value is missing, the
    empty string or the number 0, and otherwise the submitted number or the
    integer the submitted string denotes (["0"] included). *)
Theorem C1_quantity_plus_loans `{!Ambiente} b k
  (Hkeys : chaves_abaixo (Emprestimos b)) :
  (∀ agora u l, saldo k (alugar agora u l b).1 = saldo k b)
  ∧ (∀ e, saldo k (renovar e b).1 = saldo k b)
  ∧ (∀ e, saldo k (devolver e b).1 = saldo k b)
  ∧ (∀ l body file,
       status (putLivros l body file b).2 ≠ 200 →
       saldo k (putLivros l body file b).1 = saldo k b)
  ∧ (∀ l body file livro q f,
       linhas (Livros b) !! l = Some livro →
       quantidade_enviada (req_quantidade body) (quantidade livro) = Some q →
       faixaEtaria_enviada (req_faixaEtaria body) (faixaEtaria livro)
       = Some f →
       quantidade_apos_update (req_quantidade body) (quantidade livro) q
       ∧ saldo k (putLivros l body file b).1
         = if decide (k = l)
           then Some (q + Z.of_nat (size (emprestimos_do_livro l b)))
           else saldo k b).
Proof.
  split; [intros; by apply saldo_alugar|].
  split; [intros; apply saldo_renovar|].
  split; [intros; apply saldo_devolver|].
  split; [intros l body file Hs; by rewrite putLivros_nao_200|].
  intros l body file livro q f Hl Hq Hf.
  split; [by apply quantidade_enviada_apos_update|].
  apply (saldo_putLivros_sucesso _ _ _ _ _ livro q f); [done | |].
  - by apply quantidade_enviada_atribuida.
  - by apply faixaEtaria_enviada_atribuida.
Qed.

Lemma C1_quantity_plus_loans_witness :
  saldo 1 (alugar 1000 1 1 banco_um_exemplar).1 = Some 1
  ∧ saldo 1 (devolver 1 banco_um_exemplar).1 = Some 1
  ∧ saldo 1 (putLivros 1 corpo_multipart_zero (Some "capa.png")
               banco_emprestado).1 = Some 1.
Proof.
  destruct (C1_quantity_plus_loans banco_um_exemplar 1)
    as (Ha & _ & Hd & _ & _); [apply chaves_abaixo_vazio|].
  destruct (C1_quantity_plus_loans banco_emprestado 1)
    as (_ & _ & _ & _ & Hp).
  { unfold chaves_abaixo. apply (bool_decide_unpack _). vm_compute. exact I. }
  destruct (Hp 1 corpo_multipart_zero (Some "capa.png")
              (mkLivro "A" "Autor" 0 "Editora" "Romance" "Livre" None)
              0 "Livre") as [_ Hs];
    [vm_compute; reflexivity | reflexivity | reflexivity |].
  rewrite Ha, Hd, Hs. repeat split; vm_compute; reflexivity.
Defined.

(** ** Renewal *)

Lemma Emprestimos_postLivros `{!Ambiente} body file b :
  Emprestimos (postLivros body file b).1 = Emprestimos b.
Proof. unfold postLivros. by destruct (novoLivro body file). Qed.

Lemma Emprestimos_putLivros `{!Ambiente} l body file b :
  Emprestimos (putLivros l body file b).1 = Emprestimos b.
Proof.
  destruct (putLivros_casos l body file b) as [->|(livro & q & f & Hl & Hq & Hf)];
    [done|].
  by rewrite (putLivros_sucesso _ _ _ _ _ _ _ Hl Hq Hf).
Qed.

Lemma Emprestimos_registrar body b :
  Emprestimos (registrar body b).1 = Emprestimos b.
Proof.
  unfold registrar. destruct (novoUsuario body) as [row|]; [|done].
  by destruct (email_em_uso (email row) None (Usuarios b)).
Qed.

Lemma Emprestimos_putUsuarios u body b :
  Emprestimos (putUsuarios u body b).1 = Emprestimos b.
Proof.
  unfold putUsuarios. destruct (findByPk (Usuarios b) u) as [i|]; [|done].
  simpl. by destruct (_ && _).
Qed.

Lemma alugar_casos `{!Ambiente} agora u l b :
  alugar agora u l b = (b, erro400 msg_alugar)
  ∨ ∃ usuario livro,
      linhas (Usuarios b) !! u = Some usuario
      ∧ linhas (Livros b) !! l = Some livro
      ∧ 0 < quantidade livro.
Proof.
  destruct (linhas (Usuarios b) !! u) as [usuario|] eqn:Hu;
    [|left; apply alugar_falha; auto].
  destruct (linhas (Livros b) !! l) as [livro|] eqn:Hl;
    [|left; apply alugar_falha; auto].
  destruct (decide (0 < quantidade livro)) as [Hq|Hq]; [right; eauto|].
  left. apply alugar_falha. right; right. exists livro. split; [done|lia].
Qed.

Lemma limite_renovações_atender `{!Ambiente} p b :
  limite_renovações b → limite_renovações (atender p b).1.
Proof.
  unfold limite_renovações. intros Hb.
  destruct p as [body file|l body file|body|u body|e s|agora u l|k|k]; simpl.
  - by rewrite Emprestimos_postLivros.
  - by rewrite Emprestimos_putLivros.
  - by rewrite Emprestimos_registrar.
  - by rewrite Emprestimos_putUsuarios.
  - unfold postLogin. destruct e as [ve|], s as [vs|]; try done.
    by destruct (findOne _ _).
  - destruct (alugar_casos agora u l b) as [->|(usuario & livro & Hu & Hl & Hq)];
      [done|].
    rewrite (alugar_sucesso _ _ _ _ _ _ Hu Hl Hq). simpl.
    apply map_Forall_insert_2; [simpl; lia | done].
  - destruct (linhas (Emprestimos b) !! k) as [e|] eqn:He;
      [|by rewrite devolver_sem_emprestimo].
    destruct (linhas (Livros b) !! LivroId e) as [livro|] eqn:Hl;
      [|by rewrite (devolver_sem_livro _ _ e)].
    rewrite (devolver_sucesso _ _ _ _ He Hl). simpl.
    by apply map_Forall_delete.
  - destruct (linhas (Emprestimos b) !! k) as [e|] eqn:He;
      [|rewrite renovar_falha; auto].
    destruct (decide (renovações e < 2)) as [Hr|Hr];
      [|rewrite renovar_falha; [done|]; right; exists e; split; [done|lia]].
    rewrite (renovar_sucesso _ _ _ He Hr). simpl.
    apply map_Forall_insert_2; [simpl; lia | done].
Qed.

Lemma limite_renovações_alcancavel `{!Ambiente} b :
  alcancavel b → limite_renovações b.
Proof.
  induction 1 as [|b p _ IH].
  - apply map_Forall_empty.
  - by apply limite_renovações_atender.
Qed.

(** The loan keys of every store the server can reach are below the
    counter of the loan table. *)
Lemma chaves_abaixo_atender `{!Ambiente} p b :
  chaves_abaixo (Emprestimos b) → chaves_abaixo (Emprestimos (atender p b).1).
Proof.
  unfold chaves_abaixo. intros Hb.
  destruct p as [body file|l body file|body|u body|e s|agora u l|k|k]; simpl.
  - by rewrite Emprestimos_postLivros.
  - by rewrite Emprestimos_putLivros.
  - by rewrite Emprestimos_registrar.
  - by rewrite Emprestimos_putUsuarios.
  - unfold postLogin. destruct e as [ve|], s as [vs|]; try done.
    by destruct (findOne _ _).
  - destruct (alugar_casos agora u l b) as [->|(usuario & livro & Hu & Hl & Hq)];
      [done|].
    rewrite (alugar_sucesso _ _ _ _ _ _ Hu Hl Hq). simpl.
    apply map_Forall_insert_2; [lia|].
    intros k e Hk. apply Hb in Hk. simpl in Hk. lia.
  - destruct (linhas (Emprestimos b) !! k) as [e|] eqn:He;
      [|by rewrite devolver_sem_emprestimo].
    destruct (linhas (Livros b) !! LivroId e) as [livro|] eqn:Hl;
      [|by rewrite (devolver_sem_livro _ _ e)].
    rewrite (devolver_sucesso _ _ _ _ He Hl). simpl.
    by apply map_Forall_delete.
  - destruct (linhas (Emprestimos b) !! k) as [e|] eqn:He;
      [|rewrite renovar_falha; auto].
    destruct (decide (renovações e < 2)) as [Hr|Hr];
      [|rewrite renovar_falha; [done|]; right; exists e; split; [done|lia]].
    rewrite (renovar_sucesso _ _ _ He Hr). simpl.
    apply map_Forall_insert_2; [by apply (Hb k e) | done].
Qed.

Lemma chaves_abaixo_alcancavel `{!Ambiente} b :
  alcancavel b → chaves_abaixo (Emprestimos b).
Proof.
  induction 1 as [|b p _ IH].
  - apply map_Forall_empty.
  - by apply chaves_abaixo_atender.
Qed.

(** Whatever the loan, a successful renewal stores the due date it found:
    only the renewal count is written. *)
Lemma renovar_dataVencimento_gravada `{!Ambiente} k b e :
  linhas (Emprestimos b) !! k = Some e →
  renovações e < 2 →
  dataVencimento <$> linhas (Emprestimos (renovar k b).1) !! k
  = Some (dataVencimento e)
  ∧ (dataVencimento ∘ dataValues ∘ renovar_instancia)
      <$> findByPk (Emprestimos b) k
    = Some (setDate_mais (dataVencimento e) 7).
Proof.
  intros He Hr. rewrite (renovar_sucesso _ _ _ He Hr). simpl.
  rewrite lookup_insert_eq. split; [done|].
  unfold findByPk. by rewrite He.
Qed.

(** C4.  Every loan of a store the server can reach has at most two
    renewals; when a loan has two, [POST /renovar] on it answers 400 with the
    cannot-renew-any-more error and leaves the store, and so the count of 2,
    as it was. *)
Theorem C4_renewal_cap `{!Ambiente} b k e
  (Halc : alcancavel b)
  (He : linhas (Emprestimos b) !! k = Some e) :
  renovações e ≤ 2
  ∧ (renovações e = 2 →
     renovar k b
     = (b, {| status := 400;
              corpo := JErro "Não é possível renovar mais vezes" |})
     ∧ renovações <$> linhas (Emprestimos (renovar k b).1) !! k = Some 2).
Proof.
  split.
  - by apply (limite_renovações_alcancavel b Halc k e).
  - intros H2. rewrite renovar_falha.
    + split; [done|]. simpl. rewrite He. simpl. by rewrite H2.
    + right. exists e. split; [done|lia].
Qed.

Lemma C4_renewal_cap_witness :
  renovações <$> linhas (Emprestimos banco_renovado_2x) !! 1 = Some 2
  ∧ renovar 1 banco_renovado_2x
    = (banco_renovado_2x, erro400 "Não é possível renovar mais vezes").
Proof.
  destruct (C4_renewal_cap banco_renovado_2x 1
              (mkEmprestimo 1 1 604801000 2)) as (_ & H2).
  - repeat apply alcancavel_atender_todos. constructor.
  - vm_compute. reflexivity.
  - destruct H2 as (Hr & _); [reflexivity|].
    split; [vm_compute; reflexivity | exact Hr].
Defined.

(** C3.  [POST /renovar] on the loan of [banco_emprestado] (no renewal yet,
    due at 604801000): the handler answers 200, the instance in memory has
    its due date moved seven days on from the stored one, and the stored
    renewal count becomes 1; but the due date in the store is the one it had
    before the request, since [save] writes the attributes recorded as
    changed and moving the [Date] in place records none. *)
Theorem C3_renew_due_date_not_saved :
  linhas (Emprestimos banco_emprestado) !! 1
  = Some (mkEmprestimo 1 1 604801000 0)
  ∧ (renovar 1 banco_emprestado).2
    = {| status := 200; corpo := JMensagem "Livro renovado com sucesso!" |}
  ∧ (dataVencimento ∘ dataValues ∘ renovar_instancia)
      <$> findByPk (Emprestimos banco_emprestado) 1
    = Some (604801000 + 7 * 86400000)
  ∧ linhas (Emprestimos (renovar 1 banco_emprestado).1) !! 1
    = Some (mkEmprestimo 1 1 604801000 1).
Proof. repeat split; vm_compute; reflexivity. Qed.

(** ** Two borrow requests *)

(** A request whose four store accesses run with nothing in between does
    what [alugar] does. *)
Lemma alugar_passos_seguidos `{!Ambiente} agora u l b :
  let '(e1, b1) := alugar_passo agora u l Inicio b in
  let '(e2, b2) := alugar_passo agora u l e1 b1 in
  let '(e3, b3) := alugar_passo agora u l e2 b2 in
  let '(e4, b4) := alugar_passo agora u l e3 b3 in
  (e4, b4) = (Respondido (alugar agora u l b).2, (alugar agora u l b).1).
Proof.
  unfold alugar. simpl.
  destruct (findByPk (Attr := AttrUsuario) (Usuarios b) u) as [usuario|];
    destruct (findByPk (Attr := AttrLivro) (Livros b) l) as [livro|];
    simpl; try done.
  by destruct (0 <? quantidade (dataValues livro)).
Qed.

Lemma intercalar_primeiro_inteiro `{!Ambiente} a1 u1 l1 a2 u2 l2 agenda e2 b :
  intercalar a1 u1 l1 a2 u2 l2 (true :: true :: true :: true :: agenda)
    {| primeiro := Inicio; segundo := e2; banco := b |}
  = intercalar a1 u1 l1 a2 u2 l2 agenda
      {| primeiro := Respondido (alugar a1 u1 l1 b).2; segundo := e2;
         banco := (alugar a1 u1 l1 b).1 |}.
Proof.
  unfold alugar. simpl.
  destruct (findByPk (Attr := AttrUsuario) (Usuarios b) u1) as [usuario|];
    destruct (findByPk (Attr := AttrLivro) (Livros b) l1) as [livro|];
    simpl; try done.
  by destruct (0 <? quantidade (dataValues livro)).
Qed.

Lemma intercalar_segundo_inteiro `{!Ambiente} a1 u1 l1 a2 u2 l2 agenda e1 b :
  intercalar a1 u1 l1 a2 u2 l2 (false :: false :: false :: false :: agenda)
    {| primeiro := e1; segundo := Inicio; banco := b |}
  = intercalar a1 u1 l1 a2 u2 l2 agenda
      {| primeiro := e1; segundo := Respondido (alugar a2 u2 l2 b).2;
         banco := (alugar a2 u2 l2 b).1 |}.
Proof.
  unfold alugar. simpl.
  destruct (findByPk (Attr := AttrUsuario) (Usuarios b) u2) as [usuario|];
    destruct (findByPk (Attr := AttrLivro) (Livros b) l2) as [livro|];
    simpl; try done.
  by destruct (0 <? quantidade (dataValues livro)).
Qed.

(** Two borrows of the last copy, one after the other. *)
Lemma alugar_duas_vezes `{!Ambiente} a1 u1 a2 u2 l b usuario1 usuario2 livro :
  linhas (Usuarios b) !! u1 = Some usuario1 →
  linhas (Usuarios b) !! u2 = Some usuario2 →
  linhas (Livros b) !! l = Some livro →
  quantidade livro = 1 →
  status (alugar a1 u1 l b).2 = 201
  ∧ alugar a2 u2 l (alugar a1 u1 l b).1
    = ((alugar a1 u1 l b).1, erro400 msg_alugar).
Proof.
  intros Hu1 Hu2 Hl Hq.
  rewrite (alugar_sucesso a1 u1 l b usuario1 livro) by (done || lia).
  split; [done|].
  apply alugar_falha. right; right. simpl.
  exists (com_quantidade (quantidade livro - 1) livro).
  rewrite lookup_insert_eq. split; [done | simpl; lia].
Qed.

(** C9, as the specification states it, fails: when the store accesses of
    two borrows of the single copy alternate, both requests read quantity 1,
    both create a loan and both answer 201; the store ends with two open
    loans on the book and quantity 0. *)
Lemma C9_interleaved_counterexample :
  let c := intercalar 1000 1 1 2000 2 1 agenda_alternada
             (dois_inicio banco_um_exemplar) in
  quantidade <$> linhas (Livros banco_um_exemplar) !! 1 = Some 1
  ∧ sucesso (primeiro c) = true
  ∧ sucesso (segundo c) = true
  ∧ indisponivel (primeiro c) = false
  ∧ indisponivel (segundo c) = false
  ∧ size (emprestimos_do_livro 1 (banco c)) = 2%nat
  ∧ quantidade <$> linhas (Livros (banco c)) !! 1 = Some 0.
Proof. repeat split; vm_compute; reflexivity. Qed.

(** C9 (amended).  For a book with quantity 1 and two existing users, when
    the two borrows run one after the other, each with its store accesses
    uninterrupted, exactly one succeeds, the one that runs first, and the
    other receives the 400 response of a failed borrow. *)
Theorem C9_one_after_the_other `{!Ambiente} a1 u1 a2 u2 l b usuario1 usuario2 livro
  (Hu1 : linhas (Usuarios b) !! u1 = Some usuario1)
  (Hu2 : linhas (Usuarios b) !! u2 = Some usuario2)
  (Hl : linhas (Livros b) !! l = Some livro)
  (Hq : quantidade livro = 1) :
  let c12 := intercalar a1 u1 l a2 u2 l agenda_primeiro_depois_segundo
               (dois_inicio b) in
  let c21 := intercalar a1 u1 l a2 u2 l agenda_segundo_depois_primeiro
               (dois_inicio b) in
  (sucesso (primeiro c12) = true ∧ sucesso (segundo c12) = false
   ∧ indisponivel (segundo c12) = true)
  ∧ (sucesso (segundo c21) = true ∧ sucesso (primeiro c21) = false
     ∧ indisponivel (primeiro c21) = true).
Proof.
  unfold agenda_primeiro_depois_segundo, agenda_segundo_depois_primeiro,
    dois_inicio.
  cbv zeta.
  rewrite !intercalar_primeiro_inteiro, !intercalar_segundo_inteiro,
    !intercalar_primeiro_inteiro.
  destruct (alugar_duas_vezes a1 u1 a2 u2 l b _ _ _ Hu1 Hu2 Hl Hq)
    as [H1 H1'].
  destruct (alugar_duas_vezes a2 u2 a1 u1 l b _ _ _ Hu2 Hu1 Hl Hq)
    as [H2 H2'].
  simpl. rewrite H1', H2'. simpl. rewrite H1, H2.
  repeat split.
Qed.

Lemma C9_one_after_the_other_witness :
  sucesso (primeiro (intercalar 1000 1 1 2000 2 1
                       agenda_primeiro_depois_segundo
                       (dois_inicio banco_um_exemplar))) = true
  ∧ indisponivel (segundo (intercalar 1000 1 1 2000 2 1
                             agenda_primeiro_depois_segundo
                             (dois_inicio banco_um_exemplar))) = true.
Proof.
  destruct (C9_one_after_the_other 1000 1 2000 2 1 banco_um_exemplar
              (mkUsuario "Ana" "ana@exemplo.br" "segredo")
              (mkUsuario "Rui" "rui@exemplo.br" "chave")
              (mkLivro "A" "Autor" 1 "Editora" "Romance" "Livre" None))
    as ((Hs & _ & Hi) & _).
  - vm_compute. reflexivity.
  - vm_compute. reflexivity.
  - vm_compute. reflexivity.
  - reflexivity.
  - split; [exact Hs | exact Hi].
Defined.

(** ** Login *)

Section FindOne.
Context {A Attr : Type} `{Modelo A Attr} `{EqDecision A}.
Implicit Types (i : Instancia A Attr) (t : Tabela A) (onde : A → bool).

Lemma findOne_Some onde t i :
  findOne onde t = Some i →
  linhas t !! pk i = Some (dataValues i)
  ∧ onde (dataValues i) = true ∧ changed i = [].
Proof.
  unfold findOne.
  destruct (head _) as [[k v]|] eqn:Hh; simpl; [|done].
  intros [= <-]. simpl.
  apply head_Some_elem_of, list_elem_of_filter in Hh as [Hp Hin].
  by apply elem_of_map_to_list in Hin.
Qed.

Lemma findOne_None onde t k v :
  findOne (Attr := Attr) onde t = None →
  linhas t !! k = Some v → onde v = false.
Proof.
  unfold findOne.
  destruct (head _) as [kv|] eqn:Hh; simpl; [done|].
  intros _ Hk. apply head_None in Hh.
  destruct (onde v) eqn:Hv; [|done].
  assert ((k, v) ∈ filter (λ kv : Z * A, onde kv.2 = true)
                      (map_to_list (linhas t))) as Hin.
  { apply list_elem_of_filter. split; [done|].
    by apply elem_of_map_to_list. }
  rewrite Hh in Hin. by apply elem_of_nil in Hin.
Qed.
End FindOne.

Lemma postLogin_casos ve vs b :
  (∃ k u,
      postLogin (Some ve) (Some vs) b
      = (b, {| status := 200; corpo := JUsuario k u |})
      ∧ linhas (Usuarios b) !! k = Some u
      ∧ where_coincide ve (email u) ∧ where_coincide vs (senha u))
  ∨ (postLogin (Some ve) (Some vs) b
     = (b, {| status := 401; corpo := JErro "Credenciais inválidas" |})
     ∧ ∀ k u, linhas (Usuarios b) !! k = Some u →
              ¬ (where_coincide ve (email u) ∧ where_coincide vs (senha u))).
Proof.
  unfold postLogin.
  destruct (findOne (Attr := AttrUsuario) _ (Usuarios b)) as [i|] eqn:Hf.
  - left. apply findOne_Some in Hf as (Hk & Hp & _).
    apply bool_decide_eq_true in Hp as [He Hs]. by eauto 8.
  - right. split; [done|]. intros k u Hk.
    pose proof (findOne_None _ _ k u Hf Hk) as Hp.
    by apply bool_decide_eq_false in Hp.
Qed.

(** C10, as the specification states it, fails for a [senha] that is not a
    string: the handler passes the body's values to [where] as they come,
    and for an array Sequelize asks whether the column is [IN] it.  With
    the array [["x", "segredo"]] Ana is logged in, although no stored
    [senha] equals the submitted value. *)
Lemma C10_array_counterexample :
  status (postLogin (Some (WTexto "ana@exemplo.br"))
            (Some (WLista ["x"; "segredo"])) banco_um_exemplar).2 = 200
  ∧ ¬ ∃ k u, linhas (Usuarios banco_um_exemplar) !! k = Some u
             ∧ WTexto (email u) = WTexto "ana@exemplo.br"
             ∧ WTexto (senha u) = WLista ["x"; "segredo"].
Proof.
  split; [vm_compute; reflexivity|].
  intros (k & u & _ & _ & Hs). discriminate Hs.
Qed.

(** C10 (amended).  [POST /login], for fields that are absent, [null],
    strings or arrays of strings, never changes the store.  It answers 400
    when the e-mail or the [senha] is absent.  Otherwise it answers 200
    exactly when some stored user has an e-mail that the submitted e-mail
    matches and a [senha] that the submitted [senha] matches, where a
    string matches the stored value equal to it, an array of strings
    matches the stored values it contains and [null] matches none; the 200
    response then carries a stored user row so matched, whole, the [senha]
    field included; otherwise the answer is 401.  For two strings: 200
    exactly when some stored user has that e-mail and that [senha]. *)
Theorem C10_login req_email req_senha b :
  (postLogin req_email req_senha b).1 = b
  ∧ (req_email = None ∨ req_senha = None →
     (postLogin req_email req_senha b).2
     = {| status := 400; corpo := JErroExcecao "" |})
  ∧ (∀ ve vs, req_email = Some ve → req_senha = Some vs →
       (status (postLogin req_email req_senha b).2 = 200
        ↔ ∃ k u, linhas (Usuarios b) !! k = Some u
                 ∧ where_coincide ve (email u)
                 ∧ where_coincide vs (senha u))
       ∧ ((∃ k u, (postLogin req_email req_senha b).2
                  = {| status := 200; corpo := JUsuario k u |}
                  ∧ linhas (Usuarios b) !! k = Some u
                  ∧ where_coincide ve (email u)
                  ∧ where_coincide vs (senha u))
          ∨ (postLogin req_email req_senha b).2
            = {| status := 401; corpo := JErro "Credenciais inválidas" |}))
  ∧ (∀ e s,
       status (login e s b).2 = 200
       ↔ ∃ k u, linhas (Usuarios b) !! k = Some u
                ∧ email u = e ∧ senha u = s).
Proof.
  assert (∀ ve vs,
            status (postLogin (Some ve) (Some vs) b).2 = 200
            ↔ ∃ k u, linhas (Usuarios b) !! k = Some u
                     ∧ where_coincide ve (email u)
                     ∧ where_coincide vs (senha u)) as Hiff.
  { intros ve vs.
    destruct (postLogin_casos ve vs b)
      as [(k & u & -> & Hk & He & Hs)|[-> Hnone]]; simpl.
    - split; [intros _; by eauto 6 | done].
    - split; [done|]. intros (k & u & Hk & He & Hs).
      by destruct (Hnone k u Hk). }
  split; [|split; [|split]].
  - destruct req_email as [ve|], req_senha as [vs|]; try done.
    by destruct (postLogin_casos ve vs b)
      as [(k & u & -> & _)|[-> _]].
  - intros [-> | ->]; [done|]. by destruct req_email.
  - intros ve vs -> ->. split; [apply Hiff|].
    destruct (postLogin_casos ve vs b)
      as [(k & u & -> & Hk & He & Hs)|[-> _]]; [left; by eauto 8 | by right].
  - intros e s. apply (Hiff (WTexto e) (WTexto s)).
Qed.

Lemma C10_login_witness :
  login "ana@exemplo.br" "segredo" banco_um_exemplar
  = (banco_um_exemplar,
     {| status := 200;
        corpo := JUsuario 1 (mkUsuario "Ana" "ana@exemplo.br" "segredo") |})
  ∧ status (login "ana@exemplo.br" "Segredo" banco_um_exemplar).2 ≠ 200
  ∧ status (postLogin (Some (WTexto "ana@exemplo.br")) None
              banco_um_exemplar).2 = 400.
Proof.
  split; [vm_compute; reflexivity|].
  destruct (C10_login (Some (WTexto "ana@exemplo.br")) None banco_um_exemplar)
    as (_ & H400 & _).
  split.
  - vm_compute. discriminate.
  - rewrite H400; [reflexivity | by right].
Defined.

(** * Further properties of the handlers *)

(** ** How the tables of users and books evolve *)

Lemma Tabela_eta {A} (t : Tabela A) :
  mkTabela (linhas t) (autoIncrement t) = t.
Proof. by destruct t. Qed.

Lemma evolui_chaves {A} (t t' : Tabela A) k :
  evolui t t' → is_Some (linhas t !! k) → is_Some (linhas t' !! k).
Proof.
  intros [->|j row row' Hj ->|row ->] Hk; simpl; [done| |].
  - destruct (decide (j = k)) as [->|Hne].
    + rewrite lookup_insert_eq. by eexists.
    + by rewrite lookup_insert_ne.
  - destruct (decide (autoIncrement t = k)) as [->|Hne].
    + rewrite lookup_insert_eq. by eexists.
    + by rewrite lookup_insert_ne.
Qed.

Lemma evolui_chaves_abaixo {A} (t t' : Tabela A) :
  evolui t t' → chaves_abaixo t → chaves_abaixo t'.
Proof.
  unfold chaves_abaixo.
  intros [->|j row row' Hj ->|row ->] Ht; simpl; [done| |].
  - apply map_Forall_insert_2; [by apply (Ht j row) | done].
  - apply map_Forall_insert_2; [lia|].
    intros k x Hk. apply Ht in Hk. simpl in Hk. lia.
Qed.

Lemma novoLivro_Some `{!Ambiente} t a v q e s g f file :
  coluna_inteiro v = Some q → coluna_faixaEtaria g = Some f →
  novoLivro (mkCorpoLivro (Some t) (Some a) (Some v) (Some e) (Some s)
               (Some g)) file
  = Some (mkLivro t a q e s f file).
Proof. intros Hq Hf. unfold novoLivro. simpl. rewrite Hq. simpl. by rewrite Hf. Qed.

Lemma novoLivro_None `{!Ambiente} body file :
  req_titulo body = None ∨ req_autor body = None
  ∨ req_quantidade body = None ∨ req_editora body = None
  ∨ req_assunto body = None ∨ req_faixaEtaria body = None →
  novoLivro body file = None.
Proof.
  unfold novoLivro. destruct body as [t a q e s f]; simpl.
  intros [-> | [-> | [-> | [-> | [-> | ->]]]]]; try done.
  - by destruct t.
  - destruct t, a; done.
  - destruct t, a, q as [v|]; simpl; try done. by destruct (coluna_inteiro v).
  - destruct t, a, q as [v|]; simpl; try done.
    destruct (coluna_inteiro v); simpl; [|done]. by destruct e.
  - destruct t, a, q as [v|]; simpl; try done.
    destruct (coluna_inteiro v); simpl; [|done]. by destruct e, s.
Qed.

Lemma postLivros_sucesso `{!Ambiente} body file b row :
  novoLivro body file = Some row →
  postLivros body file b =
    ({| Usuarios := Usuarios b;
        Livros := mkTabela (<[autoIncrement (Livros b) := row]>
                              (linhas (Livros b)))
                           (autoIncrement (Livros b) + 1);
        Emprestimos := Emprestimos b |},
     {| status := 201; corpo := JLivro (autoIncrement (Livros b)) row |}).
Proof. intros Hn. unfold postLivros. by rewrite Hn. Qed.

Lemma postLivros_falha `{!Ambiente} body file b :
  novoLivro body file = None →
  postLivros body file b =
    (b, {| status := 500; corpo := JErroExcecao "Erro no servidor: " |}).
Proof. intros Hn. unfold postLivros. by rewrite Hn. Qed.

Lemma Usuarios_postLivros `{!Ambiente} body file b :
  Usuarios (postLivros body file b).1 = Usuarios b.
Proof. unfold postLivros. by destruct (novoLivro body file). Qed.

Lemma Usuarios_putLivros `{!Ambiente} l body file b :
  Usuarios (putLivros l body file b).1 = Usuarios b.
Proof.
  destruct (putLivros_casos l body file b) as [->|(livro & q & f & Hl & Hq & Hf)];
    [done|].
  by rewrite (putLivros_sucesso _ _ _ _ _ _ _ Hl Hq Hf).
Qed.

Lemma Usuarios_alugar `{!Ambiente} agora u l b :
  Usuarios (alugar agora u l b).1 = Usuarios b.
Proof.
  destruct (alugar_casos agora u l b) as [->|(usuario & livro & Hu & Hl & Hq)];
    [done|].
  by rewrite (alugar_sucesso _ _ _ _ _ _ Hu Hl Hq).
Qed.

Lemma devolver_casos k b :
  (devolver k b).1 = b
  ∨ ∃ e livro, linhas (Emprestimos b) !! k = Some e
               ∧ linhas (Livros b) !! LivroId e = Some livro.
Proof.
  destruct (linhas (Emprestimos b) !! k) as [e|] eqn:He;
    [|left; by rewrite devolver_sem_emprestimo].
  destruct (linhas (Livros b) !! LivroId e) as [livro|] eqn:Hl;
    [right; eauto | left; by rewrite (devolver_sem_livro _ _ e)].
Qed.

Lemma renovar_casos `{!Ambiente} k b :
  renovar k b = (b, erro400 "Não é possível renovar mais vezes")
  ∨ ∃ e, linhas (Emprestimos b) !! k = Some e ∧ renovações e < 2.
Proof.
  destruct (linhas (Emprestimos b) !! k) as [e|] eqn:He;
    [|left; apply renovar_falha; auto].
  destruct (decide (renovações e < 2)) as [Hr|Hr]; [right; eauto|].
  left. apply renovar_falha. right. exists e. split; [done|lia].
Qed.

Lemma Usuarios_devolver k b : Usuarios (devolver k b).1 = Usuarios b.
Proof.
  destruct (devolver_casos k b) as [->|(e & livro & He & Hl)]; [done|].
  by rewrite (devolver_sucesso _ _ _ _ He Hl).
Qed.

Lemma Usuarios_renovar `{!Ambiente} k b : Usuarios (renovar k b).1 = Usuarios b.
Proof.
  destruct (renovar_casos k b) as [->|(e & He & Hr)]; [done|].
  by rewrite (renovar_sucesso _ _ _ He Hr).
Qed.

Lemma Livros_renovar `{!Ambiente} k b : Livros (renovar k b).1 = Livros b.
Proof.
  destruct (renovar_casos k b) as [->|(e & He & Hr)]; [done|].
  by rewrite (renovar_sucesso _ _ _ He Hr).
Qed.

Lemma Livros_registrar body b : Livros (registrar body b).1 = Livros b.
Proof.
  unfold registrar. destruct (novoUsuario body) as [row|]; [|done].
  by destruct (email_em_uso (email row) None (Usuarios b)).
Qed.

Lemma Livros_putUsuarios u body b :
  Livros (putUsuarios u body b).1 = Livros b.
Proof.
  unfold putUsuarios. destruct (findByPk (Usuarios b) u) as [i|]; [|done].
  simpl. by destruct (_ && _).
Qed.

Lemma postLogin_banco e s b : (postLogin e s b).1 = b.
Proof.
  unfold postLogin. destruct e as [ve|], s as [vs|]; try done.
  by destruct (findOne _ _).
Qed.

Lemma Livros_evolui `{!Ambiente} p b : evolui (Livros b) (Livros (atender p b).1).
Proof.
  destruct p as [body file|l body file|body|u body|e s|agora u l|k|k]; simpl.
  - destruct (novoLivro body file) as [row|] eqn:Hn.
    + rewrite (postLivros_sucesso _ _ _ _ Hn). by eapply ev_cria.
    + rewrite (postLivros_falha _ _ _ Hn). by apply ev_igual.
  - destruct (putLivros_casos l body file b)
      as [->|(livro & q & f & Hl & Hq & Hf)]; [by apply ev_igual|].
    rewrite (putLivros_sucesso _ _ _ _ _ _ _ Hl Hq Hf). by eapply ev_altera.
  - rewrite Livros_registrar. by apply ev_igual.
  - rewrite Livros_putUsuarios. by apply ev_igual.
  - rewrite postLogin_banco. by apply ev_igual.
  - destruct (alugar_casos agora u l b) as [->|(usuario & livro & Hu & Hl & Hq)];
      [by apply ev_igual|].
    rewrite (alugar_sucesso _ _ _ _ _ _ Hu Hl Hq). by eapply ev_altera.
  - destruct (devolver_casos k b) as [->|(e & livro & He & Hl)];
      [by apply ev_igual|].
    rewrite (devolver_sucesso _ _ _ _ He Hl). by eapply ev_altera.
  - rewrite Livros_renovar. by apply ev_igual.
Qed.

(** ** Users *)

Lemma email_em_uso_true e excepto (t : Tabela Usuario) :
  email_em_uso e excepto t = true ↔
  ∃ k u, linhas t !! k = Some u ∧ Some k ≠ excepto ∧ email u = e.
Proof.
  unfold email_em_uso. rewrite existsb_exists. split.
  - intros ([k u] & Hin & Hp). apply bool_decide_eq_true in Hp as [Hk He].
    apply list_elem_of_In, elem_of_map_to_list in Hin. by exists k, u.
  - intros (k & u & Hk & Hne & He). exists (k, u). split.
    + by apply list_elem_of_In, elem_of_map_to_list.
    + by apply bool_decide_eq_true.
Qed.

Lemma email_em_uso_false e excepto (t : Tabela Usuario) :
  email_em_uso e excepto t = false ↔
  ∀ k u, linhas t !! k = Some u → Some k ≠ excepto → email u ≠ e.
Proof.
  rewrite <- not_true_iff_false, email_em_uso_true. split.
  - intros Hn k u Hk Hne He. apply Hn. by exists k, u.
  - intros Hall (k & u & Hk & Hne & He). by apply (Hall k u).
Qed.

Lemma novoUsuario_Some body row :
  novoUsuario body = Some row ↔
  req_nome body = Some (nome row) ∧ req_email body = Some (email row)
  ∧ req_senha body = Some (senha row).
Proof.
  unfold novoUsuario. destruct body as [n e s]; simpl. split.
  - destruct n, e, s; simpl; try done. by intros [= <-].
  - intros (-> & -> & ->). simpl. by destruct row.
Qed.

Lemma novoUsuario_None body :
  novoUsuario body = None ↔
  req_nome body = None ∨ req_email body = None ∨ req_senha body = None.
Proof.
  unfold novoUsuario. destruct body as [n e s]; simpl.
  destruct n, e, s; simpl; intuition congruence.
Qed.

Lemma registrar_sucesso body b row :
  novoUsuario body = Some row →
  email_em_uso (email row) None (Usuarios b) = false →
  registrar body b =
    ({| Usuarios := mkTabela (<[autoIncrement (Usuarios b) := row]>
                                (linhas (Usuarios b)))
                             (autoIncrement (Usuarios b) + 1);
        Livros := Livros b; Emprestimos := Emprestimos b |},
     {| status := 201; corpo := JUsuario (autoIncrement (Usuarios b)) row |}).
Proof. intros Hn He. unfold registrar. by rewrite Hn, He. Qed.

Lemma registrar_falha body b :
  novoUsuario body = None
  ∨ (∃ row, novoUsuario body = Some row
            ∧ email_em_uso (email row) None (Usuarios b) = true) →
  registrar body b = (b, {| status := 400; corpo := JErroExcecao "" |}).
Proof.
  unfold registrar. intros [Hn | (row & Hn & He)]; rewrite Hn; [done|].
  by rewrite He.
Qed.

Lemma dataValues_atribuir_usuario body k u :
  dataValues (atribuir_usuario body (mkInstancia k u []))
  = usuario_atualizado body u.
Proof. reflexivity. Qed.

Lemma coerente_atribuir_usuario body k u :
  coerente (atribuir_usuario body (mkInstancia k u [])) u.
Proof.
  unfold atribuir_usuario. cbv zeta.
  apply coerente_setAttr; [intros c v Hc; by destruct c |].
  apply coerente_setAttr; [intros c v Hc; by destruct c |].
  apply coerente_setAttr; [intros c v Hc; by destruct c |].
  apply coerente_carregada.
Qed.

(** The e-mail is recorded as changed exactly when the assignment gives it
    a new value. *)
Lemma changed_email_atribuir_usuario body k u :
  AEmail ∈ changed (atribuir_usuario body (mkInstancia k u []))
  ↔ email (usuario_atualizado body u) ≠ email u.
Proof.
  unfold atribuir_usuario, setAttr, usuario_atualizado. simpl.
  destruct u as [n e s]. simpl.
  set (n' := js_or (req_nome body) n).
  set (e' := js_or (req_email body) e).
  set (s' := js_or (req_senha body) s).
  unfold com_nome, com_email, com_senha. simpl.
  repeat case_decide; simplify_eq; rewrite ?elem_of_cons, ?elem_of_nil;
    split; intros; try done; try tauto; try congruence;
    try (destruct_or?; done).
Qed.

Lemma putUsuarios_falha k body b :
  linhas (Usuarios b) !! k = None →
  putUsuarios k body b =
    (b, {| status := 404; corpo := JErro "Usuário não encontrado" |}).
Proof. intros Hk. unfold putUsuarios, findByPk. by rewrite Hk. Qed.

Lemma putUsuarios_sucesso k body b u :
  linhas (Usuarios b) !! k = Some u →
  (email (usuario_atualizado body u) = email u
   ∨ email_em_uso (email (usuario_atualizado body u)) (Some k) (Usuarios b)
     = false) →
  putUsuarios k body b =
    ({| Usuarios := mkTabela (<[k := usuario_atualizado body u]>
                                (linhas (Usuarios b)))
                             (autoIncrement (Usuarios b));
        Livros := Livros b; Emprestimos := Emprestimos b |},
     {| status := 200; corpo := JUsuario k (usuario_atualizado body u) |}).
Proof.
  intros Hk Hlivre. unfold putUsuarios, findByPk. rewrite Hk.
  cbn -[atribuir_usuario email_em_uso].
  rewrite dataValues_atribuir_usuario.
  assert (bool_decide
            (AEmail ∈ changed (atribuir_usuario body (mkInstancia k u [])))
          && email_em_uso (email (usuario_atualizado body u)) (Some k)
               (Usuarios b) = false) as ->.
  { destruct Hlivre as [Heq | ->]; [|by rewrite andb_false_r].
    rewrite bool_decide_eq_false_2; [done|].
    rewrite changed_email_atribuir_usuario. by intros Hn. }
  rewrite (save_coerente _ _ u); [done | done |].
  apply coerente_atribuir_usuario.
Qed.

Lemma putUsuarios_recusado k body b u :
  linhas (Usuarios b) !! k = Some u →
  email (usuario_atualizado body u) ≠ email u →
  email_em_uso (email (usuario_atualizado body u)) (Some k) (Usuarios b)
  = true →
  putUsuarios k body b = (b, {| status := 400; corpo := JErroExcecao "" |}).
Proof.
  intros Hk Hne Huso. unfold putUsuarios, findByPk. rewrite Hk.
  cbn -[atribuir_usuario email_em_uso].
  rewrite dataValues_atribuir_usuario, Huso.
  rewrite bool_decide_eq_true_2; [done|].
  by rewrite changed_email_atribuir_usuario.
Qed.

Lemma putUsuarios_casos k body b :
  (putUsuarios k body b).1 = b
  ∨ ∃ u, linhas (Usuarios b) !! k = Some u
         ∧ (email (usuario_atualizado body u) = email u
            ∨ email_em_uso (email (usuario_atualizado body u)) (Some k)
                (Usuarios b) = false).
Proof.
  destruct (linhas (Usuarios b) !! k) as [u|] eqn:Hk;
    [|left; by rewrite putUsuarios_falha].
  destruct (decide (email (usuario_atualizado body u) = email u)) as [He|He];
    [right; eauto|].
  destruct (email_em_uso (email (usuario_atualizado body u)) (Some k)
              (Usuarios b)) eqn:Huso; [|right; eauto].
  left. by rewrite (putUsuarios_recusado _ _ _ u).
Qed.

Lemma registrar_casos body b :
  (registrar body b).1 = b
  ∨ ∃ row, novoUsuario body = Some row
           ∧ email_em_uso (email row) None (Usuarios b) = false.
Proof.
  destruct (novoUsuario body) as [row|] eqn:Hn;
    [|left; rewrite registrar_falha; auto].
  destruct (email_em_uso (email row) None (Usuarios b)) eqn:Huso;
    [|right; eauto].
  left. rewrite registrar_falha; [done|]. right. eauto.
Qed.

Lemma Usuarios_evolui `{!Ambiente} p b : evolui (Usuarios b) (Usuarios (atender p b).1).
Proof.
  destruct p as [body file|l body file|body|u body|e s|agora u l|k|k]; simpl.
  - rewrite Usuarios_postLivros. by apply ev_igual.
  - rewrite Usuarios_putLivros. by apply ev_igual.
  - destruct (registrar_casos body b) as [->|(row & Hn & Huso)];
      [by apply ev_igual|].
    rewrite (registrar_sucesso _ _ _ Hn Huso). by eapply ev_cria.
  - destruct (putUsuarios_casos u body b) as [->|(usr & Hk & Hlivre)];
      [by apply ev_igual|].
    rewrite (putUsuarios_sucesso _ _ _ _ Hk Hlivre). by eapply ev_altera.
  - rewrite postLogin_banco. by apply ev_igual.
  - rewrite Usuarios_alugar. by apply ev_igual.
  - rewrite Usuarios_devolver. by apply ev_igual.
  - rewrite Usuarios_renovar. by apply ev_igual.
Qed.

Lemma emails_unicos_atender `{!Ambiente} p b :
  emails_unicos b → emails_unicos (atender p b).1.
Proof.
  intros Hb.
  destruct p as [body file|l body file|body|u body|e s|agora u l|k|k]; simpl;
    unfold emails_unicos.
  - by rewrite Usuarios_postLivros.
  - by rewrite Usuarios_putLivros.
  - destruct (registrar_casos body b) as [->|(row & Hn & Huso)]; [done|].
    rewrite (registrar_sucesso _ _ _ Hn Huso). simpl.
    rewrite email_em_uso_false in Huso.
    intros k1 k2 u1 u2 H1 H2 He.
    apply lookup_insert_Some in H1 as [[<- <-]|[Hne1 H1]];
      apply lookup_insert_Some in H2 as [[<- <-]|[Hne2 H2]]; [done| | |].
    + exfalso. by apply (Huso k2 u2).
    + exfalso. by apply (Huso k1 u1).
    + by apply (Hb k1 k2 u1 u2).
  - destruct (putUsuarios_casos u body b) as [->|(usr & Hk & Hlivre)]; [done|].
    rewrite (putUsuarios_sucesso _ _ _ _ Hk Hlivre). simpl.
    intros k1 k2 u1 u2 H1 H2 He.
    apply lookup_insert_Some in H1 as [[<- <-]|[Hne1 H1]];
      apply lookup_insert_Some in H2 as [[<- <-]|[Hne2 H2]]; [done| | |].
    + destruct Hlivre as [Heq|Huso].
      * apply (Hb u k2 usr u2); [done | done | congruence].
      * rewrite email_em_uso_false in Huso.
        exfalso. apply (Huso k2 u2); [done | congruence | done].
    + destruct Hlivre as [Heq|Huso].
      * apply (Hb k1 u u1 usr); [done | done | congruence].
      * rewrite email_em_uso_false in Huso.
        exfalso. apply (Huso k1 u1); [done | congruence | done].
    + by apply (Hb k1 k2 u1 u2).
  - by rewrite postLogin_banco.
  - by rewrite Usuarios_alugar.
  - by rewrite Usuarios_devolver.
  - by rewrite Usuarios_renovar.
Qed.

Lemma emails_unicos_alcancavel `{!Ambiente} b : alcancavel b → emails_unicos b.
Proof.
  induction 1 as [|b p _ IH]; [|by apply emails_unicos_atender].
  intros k1 k2 u1 u2 H1. simpl in H1. by rewrite lookup_empty in H1.
Qed.

Lemma chaves_abaixo_Usuarios_alcancavel `{!Ambiente} b :
  alcancavel b → chaves_abaixo (Usuarios b).
Proof.
  induction 1 as [|b p _ IH]; [apply map_Forall_empty|].
  eapply evolui_chaves_abaixo; [apply Usuarios_evolui | done].
Qed.

Lemma chaves_abaixo_Livros_alcancavel `{!Ambiente} b :
  alcancavel b → chaves_abaixo (Livros b).
Proof.
  induction 1 as [|b p _ IH]; [apply map_Forall_empty|].
  eapply evolui_chaves_abaixo; [apply Livros_evolui | done].
Qed.

Lemma chave_livre {A} (t : Tabela A) :
  chaves_abaixo t → linhas t !! autoIncrement t = None.
Proof.
  intros Ht. destruct (linhas t !! autoIncrement t) as [x|] eqn:Hx; [|done].
  apply Ht in Hx. lia.
Qed.

(** ** How the table of loans evolves *)

Lemma Emprestimos_postLogin e s b :
  Emprestimos (postLogin e s b).1 = Emprestimos b.
Proof. by rewrite postLogin_banco. Qed.

(** A loan found after a request either was there before, with the same
    user, book and due date and a renewal count raised by at most one, or is
    the one a borrow has just created for an existing user and book. *)
Lemma emprestimo_apos_atender `{!Ambiente} p b k e' :
  linhas (Emprestimos (atender p b).1) !! k = Some e' →
  (∃ e, linhas (Emprestimos b) !! k = Some e
        ∧ UsuarioId e' = UsuarioId e ∧ LivroId e' = LivroId e
        ∧ dataVencimento e' = dataVencimento e
        ∧ renovações e ≤ renovações e' ≤ renovações e + 1)
  ∨ (k = autoIncrement (Emprestimos b)
     ∧ is_Some (linhas (Usuarios b) !! UsuarioId e')
     ∧ is_Some (linhas (Livros b) !! LivroId e')
     ∧ renovações e' = 0).
Proof.
  assert (∀ e, linhas (Emprestimos b) !! k = Some e →
            ∃ e0, linhas (Emprestimos b) !! k = Some e0
                  ∧ UsuarioId e = UsuarioId e0 ∧ LivroId e = LivroId e0
                  ∧ dataVencimento e = dataVencimento e0
                  ∧ renovações e0 ≤ renovações e ≤ renovações e0 + 1)
    as Hmesmo.
  { intros e He. exists e. repeat split; (done || lia). }
  destruct p as [body file|l body file|body|u body|em s|agora u l|j|j]; simpl.
  - rewrite Emprestimos_postLivros. intros He. left. by apply Hmesmo.
  - rewrite Emprestimos_putLivros. intros He. left. by apply Hmesmo.
  - rewrite Emprestimos_registrar. intros He. left. by apply Hmesmo.
  - rewrite Emprestimos_putUsuarios. intros He. left. by apply Hmesmo.
  - rewrite Emprestimos_postLogin. intros He. left. by apply Hmesmo.
  - destruct (alugar_casos agora u l b) as [->|(usuario & livro & Hu & Hl & Hq)];
      [intros He; left; by apply Hmesmo|].
    rewrite (alugar_sucesso _ _ _ _ _ _ Hu Hl Hq). simpl.
    intros [[<- <-]|[Hne He]]%lookup_insert_Some.
    + right. simpl. rewrite Hu, Hl. repeat split; by eexists.
    + left. by apply Hmesmo.
  - destruct (devolver_casos j b) as [->|(e & livro & He & Hl)];
      [intros He; left; by apply Hmesmo|].
    rewrite (devolver_sucesso _ _ _ _ He Hl). simpl.
    intros [Hne He']%lookup_delete_Some. left. by apply Hmesmo.
  - destruct (renovar_casos j b) as [->|(e & He & Hr)];
      [intros He; left; by apply Hmesmo|].
    rewrite (renovar_sucesso _ _ _ He Hr). simpl.
    intros [[<- <-]|[Hne He']]%lookup_insert_Some.
    + left. exists e. simpl. repeat split; (done || lia).
    + left. by apply Hmesmo.
Qed.

Lemma autoIncrement_Emprestimos_atender `{!Ambiente} p b :
  autoIncrement (Emprestimos b) ≤ autoIncrement (Emprestimos (atender p b).1).
Proof.
  destruct p as [body file|l body file|body|u body|em s|agora u l|j|j]; simpl.
  - by rewrite Emprestimos_postLivros.
  - by rewrite Emprestimos_putLivros.
  - by rewrite Emprestimos_registrar.
  - by rewrite Emprestimos_putUsuarios.
  - by rewrite Emprestimos_postLogin.
  - destruct (alugar_casos agora u l b) as [->|(usuario & livro & Hu & Hl & Hq)];
      [done|].
    rewrite (alugar_sucesso _ _ _ _ _ _ Hu Hl Hq). simpl. lia.
  - destruct (devolver_casos j b) as [->|(e & livro & He & Hl)]; [done|].
    by rewrite (devolver_sucesso _ _ _ _ He Hl).
  - destruct (renovar_casos j b) as [->|(e & He & Hr)]; [done|].
    by rewrite (renovar_sucesso _ _ _ He Hr).
Qed.

(** Over any run of requests, a loan key below the counter keeps naming the
    loan it named at the start, if it names one at the end. *)
Lemma emprestimo_apos_atender_todos `{!Ambiente} ps b k e' :
  chaves_abaixo (Emprestimos b) →
  k < autoIncrement (Emprestimos b) →
  linhas (Emprestimos (atender_todos ps b)) !! k = Some e' →
  ∃ e, linhas (Emprestimos b) !! k = Some e
       ∧ UsuarioId e' = UsuarioId e ∧ LivroId e' = LivroId e
       ∧ dataVencimento e' = dataVencimento e
       ∧ renovações e ≤ renovações e'.
Proof.
  revert b. induction ps as [|p ps IH]; intros b Hkeys Hk He'; simpl in He'.
  - exists e'. repeat split; (done || lia).
  - destruct (IH (atender p b).1) as (e1 & He1 & Hu & Hl & Hd & Hr).
    + by apply chaves_abaixo_atender.
    + pose proof (autoIncrement_Emprestimos_atender p b). lia.
    + done.
    + destruct (emprestimo_apos_atender p b k e1 He1)
        as [(e & He & Hu1 & Hl1 & Hd1 & Hr1)|(-> & _)]; [|lia].
      exists e. repeat split; (congruence || lia).
Qed.

Lemma referencias_validas_atender `{!Ambiente} p b :
  referencias_validas b → referencias_validas (atender p b).1.
Proof.
  intros Hb k e' He'.
  assert (∀ j, is_Some (linhas (Usuarios b) !! j) →
               is_Some (linhas (Usuarios (atender p b).1) !! j)) as HU
    by (intros j; apply evolui_chaves, Usuarios_evolui).
  assert (∀ j, is_Some (linhas (Livros b) !! j) →
               is_Some (linhas (Livros (atender p b).1) !! j)) as HL
    by (intros j; apply evolui_chaves, Livros_evolui).
  destruct (emprestimo_apos_atender p b k e' He')
    as [(e & He & Hu & Hl & _)|(_ & Hu & Hl & _)].
  - destruct (Hb k e He) as [HeU HeL]. rewrite Hu, Hl. split; auto.
  - split; auto.
Qed.

Lemma referencias_validas_alcancavel `{!Ambiente} b :
  alcancavel b → referencias_validas b.
Proof.
  induction 1 as [|b p _ IH]; [apply map_Forall_empty|].
  by apply referencias_validas_atender.
Qed.

Lemma alcancavel_um_exemplar : alcancavel banco_um_exemplar.
Proof. apply alcancavel_atender_todos. constructor. Qed.

Lemma alcancavel_emprestado : alcancavel banco_emprestado.
Proof. apply alcancavel_atender_todos, alcancavel_um_exemplar. Qed.

(** ** The catalogue *)

(** X1.  [POST /livros] with all six fields present, a [quantidade] that
    is a 32-bit integer, sent as a number or as a decimal numeral, and a
    [faixaEtaria] among the four values of the enumeration, stores the text
    fields as they are, empty strings included, and the integer the
    [quantidade] denotes, 0 included, with the name of the uploaded file or
    [null] as image, in one new row under a key that was free, and answers
    201 with that row; users, loans and the other books are as before. *)
Theorem X1_create_book `{!Ambiente} t a v q e s f file b
  (Hkeys : chaves_abaixo (Livros b))
  (Hv : v = JNumero q ∨ ∃ d, v = JTexto d ∧ ler_decimal d = Some q)
  (Hq : na_coluna_INTEGER q)
  (Hf : f ∈ faixasEtarias) :
  let row := mkLivro t a q e s f file in
  let k := autoIncrement (Livros b) in
  postLivros
    (mkCorpoLivro (Some t) (Some a) (Some v) (Some e) (Some s) (Some f))
    file b
  = ({| Usuarios := Usuarios b;
        Livros := mkTabela (<[k := row]> (linhas (Livros b))) (k + 1);
        Emprestimos := Emprestimos b |},
     {| status := 201; corpo := JLivro k row |})
  ∧ linhas (Livros b) !! k = None.
Proof.
  split; [|by apply chave_livre].
  apply postLivros_sucesso. apply novoLivro_Some.
  - destruct Hv as [-> | (d & -> & Hd)];
      [by apply coluna_inteiro_numero | by apply coluna_inteiro_texto].
  - by apply coluna_faixaEtaria_valida.
Qed.

Lemma X1_create_book_witness :
  (postLivros
     (mkCorpoLivro (Some "") (Some "B") (Some (JTexto "0")) (Some "E")
        (Some "S") (Some "Livre")) None banco_um_exemplar).2
  = {| status := 201;
       corpo := JLivro 2 (mkLivro "" "B" 0 "E" "S" "Livre" None) |}.
Proof.
  destruct (X1_create_book "" "B" (JTexto "0") 0 "E" "S" "Livre" None
              banco_um_exemplar) as [Hr _].
  - apply chaves_abaixo_Livros_alcancavel, alcancavel_um_exemplar.
  - right. exists "0". split; reflexivity.
  - unfold na_coluna_INTEGER. lia.
  - apply (bool_decide_unpack _). vm_compute. exact I.
  - rewrite Hr. reflexivity.
Defined.

(** X2.  [POST /livros] with any of [titulo], [autor], [quantidade],
    [editora], [assunto], [faixaEtaria] absent answers 500 and leaves the
    store as it was. *)
Theorem X2_create_book_missing_field `{!Ambiente} body file b
  (Hfalta : req_titulo body = None ∨ req_autor body = None
            ∨ req_quantidade body = None ∨ req_editora body = None
            ∨ req_assunto body = None ∨ req_faixaEtaria body = None) :
  status (postLivros body file b).2 = 500
  ∧ (postLivros body file b).1 = b.
Proof.
  rewrite postLivros_falha; [done|]. by apply novoLivro_None.
Qed.

Lemma X2_create_book_missing_field_witness :
  status (postLivros corpo_livro_sem_titulo None banco_um_exemplar).2 = 500
  ∧ (postLivros corpo_livro_sem_titulo None banco_um_exemplar).1
    = banco_um_exemplar.
Proof.
  apply (X2_create_book_missing_field corpo_livro_sem_titulo None
           banco_um_exemplar).
  left. reflexivity.
Defined.

Lemma putLivros_tres_casos `{!Ambiente} l body file b :
  (linhas (Livros b) !! l = None
   ∧ putLivros l body file b
     = (b, {| status := 404; corpo := JErro "Livro não encontrado" |}))
  ∨ (∃ livro,
       linhas (Livros b) !! l = Some livro
       ∧ putLivros l body file b
         = (b, {| status := 500; corpo := JErroExcecao "Erro no servidor: " |}))
  ∨ (∃ livro q f,
       linhas (Livros b) !! l = Some livro
       ∧ putLivros l body file b
         = ({| Usuarios := Usuarios b;
               Livros := mkTabela
                 (<[l := livro_atualizado body file q f livro]>
                    (linhas (Livros b)))
                 (autoIncrement (Livros b));
               Emprestimos := Emprestimos b |},
            {| status := 200;
               corpo := JLivro l (livro_atualizado body file q f livro) |})).
Proof.
  destruct (linhas (Livros b) !! l) as [livro|] eqn:Hl;
    [|left; split; [done | by apply putLivros_falha]].
  right.
  destruct (quantidade_atribuida (req_quantidade body) (quantidade livro))
    as [q|] eqn:Hq;
    [|left; exists livro; split; [done|];
      apply (putLivros_recusado _ _ _ _ livro); auto].
  destruct (faixaEtaria_atribuida (req_faixaEtaria body) (faixaEtaria livro))
    as [f|] eqn:Hf;
    [|left; exists livro; split; [done|];
      apply (putLivros_recusado _ _ _ _ livro); auto].
  right. exists livro, q, f. split; [done|]. by apply putLivros_sucesso.
Qed.

(** X3.  [PUT /livros/:id] answers 404 exactly when the id resolves to no
    book, and then leaves the store as it was; in every case it leaves the
    users, the loans, the counter of the book table and every other book
    row untouched. *)
Theorem X3_update_book_scope `{!Ambiente} l body file b :
  (status (putLivros l body file b).2 = 404
   ↔ linhas (Livros b) !! l = None)
  ∧ (linhas (Livros b) !! l = None → (putLivros l body file b).1 = b)
  ∧ Usuarios (putLivros l body file b).1 = Usuarios b
  ∧ Emprestimos (putLivros l body file b).1 = Emprestimos b
  ∧ autoIncrement (Livros (putLivros l body file b).1)
    = autoIncrement (Livros b)
  ∧ ∀ j, j ≠ l →
      linhas (Livros (putLivros l body file b).1) !! j
      = linhas (Livros b) !! j.
Proof.
  destruct (putLivros_tres_casos l body file b)
    as [[Hl ->]|[(livro & Hl & ->)|(livro & q & f & Hl & ->)]]; simpl;
    rewrite Hl; repeat split; try done.
  intros j Hj. by rewrite lookup_insert_ne.
Qed.

Lemma X3_update_book_scope_witness :
  status (putLivros 9 corpo_quantidade_5 None banco_emprestado).2 = 404
  ∧ (putLivros 9 corpo_quantidade_5 None banco_emprestado).1
    = banco_emprestado.
Proof.
  destruct (X3_update_book_scope 9 corpo_quantidade_5 None banco_emprestado)
    as ([_ H404] & Hb & _).
  split; [apply H404 | apply Hb]; vm_compute; reflexivity.
Defined.

(** X4.  [PUT /livros/:id] on an existing book replaces the image by the
    name of the uploaded file when there is one and the update is answered
    200, and keeps the stored image otherwise: no request removes an
    image. *)
Theorem X4_update_book_image `{!Ambiente} l body file b livro
  (Hl : linhas (Livros b) !! l = Some livro) :
  imagem <$> linhas (Livros (putLivros l body file b).1) !! l
  = Some (match file with
          | Some filename =>
              if bool_decide (status (putLivros l body file b).2 = 200)
              then Some filename
              else imagem livro
          | None => imagem livro
          end).
Proof.
  destruct (putLivros_tres_casos l body file b)
    as [[Hn _]|[(livro' & Hl' & ->)|(livro' & q & f & Hl' & ->)]]; simpl.
  - congruence.
  - rewrite Hl. simpl. by destruct file.
  - rewrite lookup_insert_eq. simpl.
    assert (livro' = livro) as -> by congruence. by destruct file.
Qed.

Lemma X4_update_book_image_witness :
  imagem <$> linhas (Livros (putLivros 1 corpo_quantidade_5 (Some "7.png")
                               banco_um_exemplar).1) !! 1
  = Some (Some "7.png").
Proof.
  rewrite (X4_update_book_image 1 corpo_quantidade_5 (Some "7.png")
             banco_um_exemplar
             (mkLivro "A" "Autor" 1 "Editora" "Romance" "Livre" None)).
  - vm_compute. reflexivity.
  - vm_compute. reflexivity.
Defined.

Lemma elem_of_findAll {A} (onde : A → bool) (t : Tabela A) k x :
  (k, x) ∈ findAll onde t ↔ linhas t !! k = Some x ∧ onde x = true.
Proof.
  unfold findAll. rewrite list_elem_of_filter, elem_of_map_to_list. simpl.
  tauto.
Qed.

Lemma NoDup_fst_findAll {A} (onde : A → bool) (t : Tabela A) :
  NoDup (findAll onde t).*1.
Proof.
  unfold findAll.
  eapply sublist_NoDup; [apply (NoDup_fst_map_to_list (linhas t))|].
  apply fmap_sublist, sublist_filter.
Qed.

(** X5.  [GET /livros] lists exactly the stored books, each under its key
    and no key twice; in particular a book is listed right after the
    [POST /livros] that created it. *)
Theorem X5_list_books `{!Ambiente} b :
  (∀ k l, (k, l) ∈ getLivros b ↔ linhas (Livros b) !! k = Some l)
  ∧ NoDup (getLivros b).*1
  ∧ ∀ body file k l,
      (postLivros body file b).2 = {| status := 201; corpo := JLivro k l |} →
      (k, l) ∈ getLivros (postLivros body file b).1.
Proof.
  split; [|split].
  - intros k l. unfold getLivros. rewrite elem_of_findAll. tauto.
  - apply NoDup_fst_findAll.
  - intros body file k l. unfold getLivros. rewrite elem_of_findAll.
    destruct (novoLivro body file) as [row|] eqn:Hn.
    + rewrite (postLivros_sucesso _ _ _ _ Hn). simpl. intros [= <- <-].
      by rewrite lookup_insert_eq.
    + by rewrite (postLivros_falha _ _ _ Hn).
Qed.

Lemma X5_list_books_witness :
  (2, mkLivro "" "B" 0 "E" "S" "Livre" None)
  ∈ getLivros
      (postLivros
         (mkCorpoLivro (Some "") (Some "B") (Some (JNumero 0)) (Some "E")
            (Some "S") (Some "Livre")) None banco_um_exemplar).1.
Proof.
  destruct (X5_list_books banco_um_exemplar) as (_ & _ & Hpost).
  apply Hpost. vm_compute. reflexivity.
Defined.

(** ** Registration and user update *)

(** X6.  [POST /registrar] with the three fields present and an e-mail that
    no stored user has stores them, falsy values included, in one new row
    under a key that was free, and answers 201 with that row, [senha]
    included; books, loans and the other users are as before. *)
Theorem X6_register n e s b
  (Hkeys : chaves_abaixo (Usuarios b))
  (Hlivre : ∀ k u, linhas (Usuarios b) !! k = Some u → email u ≠ e) :
  let row := mkUsuario n e s in
  let k := autoIncrement (Usuarios b) in
  registrar (mkCorpoUsuario (Some n) (Some e) (Some s)) b
  = ({| Usuarios := mkTabela (<[k := row]> (linhas (Usuarios b))) (k + 1);
        Livros := Livros b; Emprestimos := Emprestimos b |},
     {| status := 201; corpo := JUsuario k row |})
  ∧ linhas (Usuarios b) !! k = None.
Proof.
  split; [|by apply chave_livre].
  apply (registrar_sucesso _ _ (mkUsuario n e s)); [by apply novoUsuario_Some|].
  apply email_em_uso_false. intros k u Hk _. by apply (Hlivre k u).
Qed.

Lemma X6_register_witness :
  (registrar corpo_ana banco_vazio).2
  = {| status := 201;
       corpo := JUsuario 1 (mkUsuario "Ana" "ana@exemplo.br" "segredo") |}.
Proof.
  destruct (X6_register "Ana" "ana@exemplo.br" "segredo" banco_vazio)
    as [Hr _].
  - apply chaves_abaixo_vazio.
  - intros k u Hk. simpl in Hk. by rewrite lookup_empty in Hk.
  - unfold corpo_ana. rewrite Hr. reflexivity.
Defined.

(** X7.  [POST /registrar] with a field absent, or with the e-mail of a
    stored user, answers 400 and leaves the store as it was. *)
Theorem X7_register_refused body b
  (Hmotivo : req_nome body = None ∨ req_email body = None
             ∨ req_senha body = None
             ∨ ∃ k u, linhas (Usuarios b) !! k = Some u
                      ∧ req_email body = Some (email u)) :
  status (registrar body b).2 = 400 ∧ (registrar body b).1 = b.
Proof.
  rewrite registrar_falha; [done|].
  destruct (novoUsuario body) as [row|] eqn:Hn; [|by left].
  right. exists row. split; [done|].
  apply novoUsuario_Some in Hn as (Hnome & Hemail & Hsenha).
  destruct Hmotivo as [H|[H|[H|(k & u & Hk & He)]]]; try congruence.
  apply email_em_uso_true. exists k, u. repeat split; [done | done |].
  congruence.
Qed.

Lemma X7_register_refused_witness :
  status (registrar corpo_ana banco_um_exemplar).2 = 400
  ∧ status (registrar corpo_sem_senha banco_um_exemplar).2 = 400.
Proof.
  split.
  - apply (X7_register_refused corpo_ana banco_um_exemplar).
    right; right; right.
    exists 1, (mkUsuario "Ana" "ana@exemplo.br" "segredo").
    split; vm_compute; reflexivity.
  - apply (X7_register_refused corpo_sem_senha banco_um_exemplar).
    right; right; left. reflexivity.
Defined.

(** X8.  In every store the server can reach no two users have the same
    e-mail: registration and user update refuse an e-mail that another user
    has. *)
Theorem X8_unique_emails `{!Ambiente} b k1 k2 u1 u2
  (Halc : alcancavel b)
  (H1 : linhas (Usuarios b) !! k1 = Some u1)
  (H2 : linhas (Usuarios b) !! k2 = Some u2)
  (He : email u1 = email u2) :
  k1 = k2 ∧ u1 = u2.
Proof.
  assert (k1 = k2) as -> by (by eapply (emails_unicos_alcancavel b)).
  split; [done | congruence].
Qed.

Lemma X8_unique_emails_witness :
  (1 : Z) = 1
  ∧ mkUsuario "Ana" "ana@exemplo.br" "segredo"
    = mkUsuario "Ana" "ana@exemplo.br" "segredo".
Proof.
  apply (X8_unique_emails banco_um_exemplar 1 1).
  - apply alcancavel_um_exemplar.
  - vm_compute. reflexivity.
  - vm_compute. reflexivity.
  - reflexivity.
Defined.

Lemma login_unico req_email req_senha b k u :
  emails_unicos b →
  linhas (Usuarios b) !! k = Some u →
  email u = req_email → senha u = req_senha →
  login req_email req_senha b
  = (b, {| status := 200; corpo := JUsuario k u |}).
Proof.
  intros Hun Hk He Hs. unfold login, postLogin.
  destruct (findOne _ (Usuarios b)) as [i|] eqn:Hf.
  - apply findOne_Some in Hf as (Hi & Hp & _).
    apply bool_decide_eq_true in Hp as [Hie His].
    assert (pk i = k) as Hpk
      by (eapply Hun; [exact Hi | exact Hk | congruence]).
    rewrite Hpk in Hi. rewrite Hpk. congruence.
  - pose proof (findOne_None _ _ k u Hf Hk) as Hp.
    apply bool_decide_eq_false in Hp. by destruct Hp.
Qed.

(** X9.  In a store the server can reach, a user whom [POST /registrar] has
    just created logs in with the registered e-mail and [senha]:
    [POST /login] answers 200 with that very row. *)
Theorem X9_register_then_login `{!Ambiente} body b k u
  (Halc : alcancavel b)
  (Hreg : (registrar body b).2 = {| status := 201; corpo := JUsuario k u |}) :
  login (email u) (senha u) (registrar body b).1
  = ((registrar body b).1, {| status := 200; corpo := JUsuario k u |}).
Proof.
  apply login_unico; try done.
  - apply emails_unicos_alcancavel.
    by apply (alc_passo b (Registrar body)).
  - destruct (novoUsuario body) as [row|] eqn:Hn;
      [|rewrite registrar_falha in Hreg; [done | by left]].
    destruct (email_em_uso (email row) None (Usuarios b)) eqn:Huso;
      [rewrite registrar_falha in Hreg; [done | right; eauto]|].
    rewrite (registrar_sucesso _ _ _ Hn Huso) in Hreg |- *. simpl in *.
    injection Hreg as <- <-. by rewrite lookup_insert_eq.
Qed.

Lemma X9_register_then_login_witness :
  (login "eva@exemplo.br" "x" (registrar corpo_eva banco_um_exemplar).1).2
  = {| status := 200;
       corpo := JUsuario 3 (mkUsuario "Eva" "eva@exemplo.br" "x") |}.
Proof.
  assert ((registrar corpo_eva banco_um_exemplar).2
          = {| status := 201;
               corpo := JUsuario 3 (mkUsuario "Eva" "eva@exemplo.br" "x") |})
    as Hreg by (vm_compute; reflexivity).
  exact (f_equal snd
           (X9_register_then_login corpo_eva banco_um_exemplar 3
              (mkUsuario "Eva" "eva@exemplo.br" "x")
              alcancavel_um_exemplar Hreg)).
Defined.

(** X10.  [PUT /usuarios/:id] on an existing user whose e-mail stays as it
    is, or moves to one that no other user has, answers 200 and stores a row
    in which each of [nome], [email], [senha] keeps its prior value when the
    submitted value is missing or the empty string and takes the submitted
    value otherwise: a password cannot be blanked.  The other users, the
    books and the loans are as before. *)
Theorem X10_update_user k body b u
  (Hk : linhas (Usuarios b) !! k = Some u)
  (Hlivre : js_or (req_email body) (email u) = email u
            ∨ ∀ j v, linhas (Usuarios b) !! j = Some v → j ≠ k →
                     email v ≠ js_or (req_email body) (email u)) :
  ∃ novo,
    putUsuarios k body b
    = ({| Usuarios := mkTabela (<[k := novo]> (linhas (Usuarios b)))
                               (autoIncrement (Usuarios b));
          Livros := Livros b; Emprestimos := Emprestimos b |},
       {| status := 200; corpo := JUsuario k novo |})
    ∧ campo_apos_update (req_nome body) (nome u) (nome novo)
    ∧ campo_apos_update (req_email body) (email u) (email novo)
    ∧ campo_apos_update (req_senha body) (senha u) (senha novo).
Proof.
  exists (usuario_atualizado body u). split.
  - apply putUsuarios_sucesso; [done|].
    destruct Hlivre as [Heq|Hout]; [by left | right].
    apply email_em_uso_false. intros j v Hj Hne. simpl.
    apply (Hout j v Hj). congruence.
  - repeat split; apply campo_apos_update_js_or.
Qed.

Lemma X10_update_user_witness :
  ∃ novo,
    linhas (Usuarios (putUsuarios 1 corpo_senha_vazia banco_um_exemplar).1)
      !! 1 = Some novo
    ∧ senha novo = "segredo".
Proof.
  destruct (X10_update_user 1 corpo_senha_vazia banco_um_exemplar
              (mkUsuario "Ana" "ana@exemplo.br" "segredo"))
    as (novo & Hr & _ & _ & Hs).
  - vm_compute. reflexivity.
  - left. reflexivity.
  - exists novo. rewrite Hr. simpl. rewrite lookup_insert_eq. auto.
Defined.

(** X11.  [PUT /usuarios/:id] answers 404 for an id that resolves to no
    user, and 400 when the submitted e-mail differs from the user's own and
    belongs to another user; in both cases the store is left as it was. *)
Theorem X11_update_user_refused k body b :
  (linhas (Usuarios b) !! k = None →
   putUsuarios k body b
   = (b, {| status := 404; corpo := JErro "Usuário não encontrado" |}))
  ∧ (∀ u e j v,
       linhas (Usuarios b) !! k = Some u →
       req_email body = Some e → truthy e = true → e ≠ email u →
       linhas (Usuarios b) !! j = Some v → j ≠ k → email v = e →
       status (putUsuarios k body b).2 = 400
       ∧ (putUsuarios k body b).1 = b).
Proof.
  split; [apply putUsuarios_falha|].
  intros u e j v Hk He Ht Hne Hj Hjk Hv.
  assert (email (usuario_atualizado body u) = e) as Hnovo
    by (simpl; rewrite He; simpl; by rewrite Ht).
  rewrite (putUsuarios_recusado _ _ _ u); [done | done | congruence |].
  apply email_em_uso_true. exists j, v. rewrite Hnovo.
  repeat split; [done | congruence | done].
Qed.

Lemma X11_update_user_refused_witness :
  status (putUsuarios 1 corpo_email_de_rui banco_um_exemplar).2 = 400
  ∧ (putUsuarios 1 corpo_email_de_rui banco_um_exemplar).1
    = banco_um_exemplar.
Proof.
  destruct (X11_update_user_refused 1 corpo_email_de_rui banco_um_exemplar)
    as [_ H400].
  apply (H400 (mkUsuario "Ana" "ana@exemplo.br" "segredo") "rui@exemplo.br"
           2 (mkUsuario "Rui" "rui@exemplo.br" "chave"));
    try (vm_compute; reflexivity); try discriminate.
Defined.

(** ** The lending engine over runs of requests *)



Lemma com_quantidade_volta q livro :
  com_quantidade (quantidade livro - 1 + 1) (com_quantidade q livro)
  = livro.
Proof. destruct livro. unfold com_quantidade. simpl. f_equal. lia. Qed.

(** X13.  A successful borrow followed by the return of the loan it created
    gives back the store of before the borrow, rows of books and of loans
    alike, except that the counter of the loan table has moved on by one. *)
Theorem X13_borrow_then_return `{!Ambiente} agora u l b usuario livro
  (Hkeys : chaves_abaixo (Emprestimos b))
  (Hu : linhas (Usuarios b) !! u = Some usuario)
  (Hl : linhas (Livros b) !! l = Some livro)
  (Hq : 0 < quantidade livro) :
  devolver (autoIncrement (Emprestimos b)) (alugar agora u l b).1
  = ({| Usuarios := Usuarios b; Livros := Livros b;
        Emprestimos := mkTabela (linhas (Emprestimos b))
                                (autoIncrement (Emprestimos b) + 1) |},
     {| status := 200; corpo := JMensagem "Livro devolvido com sucesso" |}).
Proof.
  rewrite (alugar_sucesso _ _ _ _ _ _ Hu Hl Hq).
  rewrite (devolver_sucesso _ _ (emprestimo_novo agora u l)
             (com_quantidade (quantidade livro - 1) livro)); simpl.
  - rewrite insert_insert_eq, com_quantidade_volta.
    rewrite (insert_id _ _ _ Hl), Tabela_eta.
    rewrite delete_insert_id by (by apply chave_livre).
    done.
  - apply lookup_insert_eq.
  - apply lookup_insert_eq.
Qed.

Lemma X13_borrow_then_return_witness :
  Livros (devolver 1 (alugar 1000 1 1 banco_um_exemplar).1).1
  = Livros banco_um_exemplar
  ∧ linhas (Emprestimos (devolver 1 (alugar 1000 1 1 banco_um_exemplar).1).1)
    = linhas (Emprestimos banco_um_exemplar).
Proof.
  pose proof (X13_borrow_then_return 1000 1 1 banco_um_exemplar
                (mkUsuario "Ana" "ana@exemplo.br" "segredo")
                (mkLivro "A" "Autor" 1 "Editora" "Romance" "Livre" None))
    as H.
  change (autoIncrement (Emprestimos banco_um_exemplar)) with 1 in H.
  rewrite H.
  - split; reflexivity.
  - apply chaves_abaixo_vazio.
  - vm_compute. reflexivity.
  - vm_compute. reflexivity.
  - simpl. lia.
Defined.

Lemma chave_usada_abaixo {A} (t : Tabela A) k x :
  chaves_abaixo t → linhas t !! k = Some x → k < autoIncrement t.
Proof. intros Ht Hk. by apply (Ht k x). Qed.



(** X15.  Over any run of requests from a reachable store, a loan that is
    still in the store belongs to the same user and the same book as at the
    start, and its renewal count has not gone down. *)
Theorem X15_loan_user_and_book_fixed `{!Ambiente} b k e ps e'
  (Halc : alcancavel b)
  (He : linhas (Emprestimos b) !! k = Some e)
  (He' : linhas (Emprestimos (atender_todos ps b)) !! k = Some e') :
  UsuarioId e' = UsuarioId e ∧ LivroId e' = LivroId e
  ∧ renovações e ≤ renovações e'.
Proof.
  pose proof (chaves_abaixo_alcancavel b Halc) as Hkeys.
  apply emprestimo_apos_atender_todos in He'
    as (e0 & He0 & Hu & Hl & _ & Hr); [| done |].
  - by simplify_eq.
  - by apply (chave_usada_abaixo _ _ e).
Qed.

Lemma X15_loan_user_and_book_fixed_witness :
  UsuarioId (mkEmprestimo 1 1 604801000 2) = 1
  ∧ LivroId (mkEmprestimo 1 1 604801000 2) = 1
  ∧ 0 ≤ renovações (mkEmprestimo 1 1 604801000 2).
Proof.
  apply (X15_loan_user_and_book_fixed banco_emprestado 1
           (emprestimo_novo 1000 1 1) [Renovar 1; Renovar 1]).
  - apply alcancavel_emprestado.
  - vm_compute. reflexivity.
  - vm_compute. reflexivity.
Defined.

(** X16.  Over any run of requests from a reachable store, the due date
    stored for a loan that is still in the store is the one it had at the
    start: no request, renewals included, writes the [dataVencimento]
    column of an existing loan. *)
Theorem X16_stored_due_date_fixed `{!Ambiente} b k e ps e'
  (Halc : alcancavel b)
  (He : linhas (Emprestimos b) !! k = Some e)
  (He' : linhas (Emprestimos (atender_todos ps b)) !! k = Some e') :
  dataVencimento e' = dataVencimento e.
Proof.
  pose proof (chaves_abaixo_alcancavel b Halc) as Hkeys.
  apply emprestimo_apos_atender_todos in He'
    as (e0 & He0 & _ & _ & Hd & _); [| done |].
  - by simplify_eq.
  - by apply (chave_usada_abaixo _ _ e).
Qed.

Lemma X16_stored_due_date_fixed_witness :
  dataVencimento (mkEmprestimo 1 1 604801000 2) = 604801000.
Proof.
  change (dataVencimento (mkEmprestimo 1 1 604801000 2)
          = dataVencimento (emprestimo_novo 1000 1 1)).
  apply (X16_stored_due_date_fixed banco_emprestado 1
           (emprestimo_novo 1000 1 1) [Renovar 1; Renovar 1]).
  - apply alcancavel_emprestado.
  - vm_compute. reflexivity.
  - vm_compute. reflexivity.
Defined.

Lemma quantidades_nao_negativas_motor `{!Ambiente} p b :
  do_motor p = true →
  quantidades_nao_negativas b → quantidades_nao_negativas (atender p b).1.
Proof.
  intros Hp Hb.
  unfold quantidades_nao_negativas in *.
  destruct p as [body file|l body file|body|u body|em s|agora u l|k|k];
    try discriminate Hp; simpl.
  - destruct (alugar_casos agora u l b) as [->|(usuario & livro & Hu & Hl & Hq)];
      [done|].
    rewrite (alugar_sucesso _ _ _ _ _ _ Hu Hl Hq). simpl.
    apply map_Forall_insert_2; [simpl; lia | done].
  - destruct (devolver_casos k b) as [->|(e & livro & He & Hl)]; [done|].
    rewrite (devolver_sucesso _ _ _ _ He Hl). simpl.
    apply map_Forall_insert_2; [|done].
    pose proof (Hb _ _ Hl) as Hq. simpl in *. lia.
  - by rewrite Livros_renovar.
Qed.

(** X17.  Borrow, return and renew never make a quantity negative: when no
    book of the store has a negative quantity before one of these requests,
    none has one after it. *)
Theorem X17_engine_keeps_quantities_nonnegative `{!Ambiente} p b
  (Hp : do_motor p = true)
  (Hb : quantidades_nao_negativas b) :
  quantidades_nao_negativas (atender p b).1.
Proof. by apply quantidades_nao_negativas_motor. Qed.

Lemma X17_engine_keeps_quantities_nonnegative_witness :
  quantidades_nao_negativas (atender (Alugar 1000 1 1) banco_um_exemplar).1.
Proof.
  apply (X17_engine_keeps_quantities_nonnegative (Alugar 1000 1 1)
           banco_um_exemplar).
  - reflexivity.
  - unfold quantidades_nao_negativas. apply (bool_decide_unpack _).
    vm_compute. exact I.
Defined.

(** ** Outcomes of renew and borrow *)

(** X18.  [POST /renovar] answers 200 exactly when the id resolves to a loan
    with fewer than two renewals.  Otherwise, an unknown loan id included,
    it answers 400 with the cannot-renew-any-more message and changes
    nothing.  In every case the users, the books and the other loans are as
    before. *)
Theorem X18_renew_outcome `{!Ambiente} k b :
  (status (renovar k b).2 = 200
   ↔ ∃ e, linhas (Emprestimos b) !! k = Some e ∧ renovações e < 2)
  ∧ (linhas (Emprestimos b) !! k = None →
     renovar k b = (b, erro400 "Não é possível renovar mais vezes"))
  ∧ (status (renovar k b).2 ≠ 200 →
     renovar k b = (b, erro400 "Não é possível renovar mais vezes"))
  ∧ Usuarios (renovar k b).1 = Usuarios b
  ∧ Livros (renovar k b).1 = Livros b
  ∧ ∀ j, j ≠ k →
      linhas (Emprestimos (renovar k b).1) !! j
      = linhas (Emprestimos b) !! j.
Proof.
  split; [|split; [|split; [|split; [|split]]]].
  - destruct (renovar_casos k b) as [Hf|(e & He & Hr)].
    + rewrite Hf. simpl. split; [done|]. intros (e & He & Hr).
      rewrite (renovar_sucesso _ _ _ He Hr) in Hf. done.
    + rewrite (renovar_sucesso _ _ _ He Hr). simpl. split; [eauto | done].
  - intros Hk. apply renovar_falha. by left.
  - destruct (renovar_casos k b) as [Hf|(e & He & Hr)]; [done|].
    rewrite (renovar_sucesso _ _ _ He Hr). simpl. done.
  - apply Usuarios_renovar.
  - apply Livros_renovar.
  - intros j Hj. destruct (renovar_casos k b) as [->|(e & He & Hr)]; [done|].
    rewrite (renovar_sucesso _ _ _ He Hr). simpl. by rewrite lookup_insert_ne.
Qed.

Lemma X18_renew_outcome_witness :
  renovar 9 banco_emprestado
  = (banco_emprestado, erro400 "Não é possível renovar mais vezes")
  ∧ status (renovar 1 banco_emprestado).2 = 200.
Proof.
  destruct (X18_renew_outcome 9 banco_emprestado) as (_ & Hnone & _).
  destruct (X18_renew_outcome 1 banco_emprestado) as ([_ H200] & _).
  split.
  - apply Hnone. vm_compute. reflexivity.
  - apply H200. exists (emprestimo_novo 1000 1 1).
    split; [vm_compute; reflexivity | simpl; lia].
Defined.

(** X19.  A loan with no renewal yet can be renewed twice and no more: the
    first two [POST /renovar] answer 200, the third answers 400 and changes
    nothing, and the stored loan then has two renewals and the due date it
    had before the three requests. *)
Theorem X19_two_renewals_then_refusal `{!Ambiente} k b e
  (He : linhas (Emprestimos b) !! k = Some e)
  (H0 : renovações e = 0) :
  let b1 := (renovar k b).1 in
  let b2 := (renovar k b1).1 in
  status (renovar k b).2 = 200
  ∧ status (renovar k b1).2 = 200
  ∧ renovar k b2 = (b2, erro400 "Não é possível renovar mais vezes")
  ∧ renovações <$> linhas (Emprestimos b2) !! k = Some 2
  ∧ dataVencimento <$> linhas (Emprestimos b2) !! k
    = Some (dataVencimento e).
Proof.
  cbv zeta.
  rewrite (renovar_sucesso k b e He) by lia. simpl.
  rewrite (renovar_sucesso k _ (com_renovações (renovações e + 1) e));
    [| by simpl; rewrite lookup_insert_eq | simpl; lia].
  simpl. rewrite insert_insert_eq.
  repeat split.
  - apply renovar_falha. right. eexists. simpl.
    rewrite lookup_insert_eq. split; [done | simpl; lia].
  - rewrite lookup_insert_eq. simpl. f_equal. lia.
  - by rewrite lookup_insert_eq.
Qed.

Lemma X19_two_renewals_then_refusal_witness :
  status (renovar 1 banco_emprestado).2 = 200
  ∧ renovar 1 banco_renovado_2x
    = (banco_renovado_2x, erro400 "Não é possível renovar mais vezes").
Proof.
  destruct (X19_two_renewals_then_refusal 1 banco_emprestado
              (emprestimo_novo 1000 1 1)) as (H1 & _ & H3 & _).
  - vm_compute. reflexivity.
  - reflexivity.
  - split; [exact H1 | exact H3].
Defined.

(** X20.  [POST /alugar] answers 201 exactly when the user id and the book
    id resolve and the book's quantity is positive.  Otherwise, a negative
    quantity included, it answers 400 with its one error message and
    changes nothing. *)
Theorem X20_borrow_outcome `{!Ambiente} agora u l b :
  (status (alugar agora u l b).2 = 201
   ↔ ∃ usuario livro,
       linhas (Usuarios b) !! u = Some usuario
       ∧ linhas (Livros b) !! l = Some livro
       ∧ 0 < quantidade livro)
  ∧ (status (alugar agora u l b).2 ≠ 201 →
     alugar agora u l b
     = (b, erro400 "Usuário ou livro inválido, ou livro não disponível")).
Proof.
  destruct (alugar_casos agora u l b) as [Hf|(usuario & livro & Hu & Hl & Hq)].
  - rewrite Hf. simpl. split; [|done]. split; [done|].
    intros (usuario & livro & Hu & Hl & Hq).
    by rewrite (alugar_sucesso _ _ _ _ _ _ Hu Hl Hq) in Hf.
  - rewrite (alugar_sucesso _ _ _ _ _ _ Hu Hl Hq). simpl.
    split; [|done]. split; [eauto | done].
Qed.

Lemma X20_borrow_outcome_witness :
  status (alugar 1000 1 1 banco_um_exemplar).2 = 201
  ∧ alugar 1000 1 1 banco_esgotado = (banco_esgotado, erro400 msg_alugar).
Proof.
  destruct (X20_borrow_outcome 1000 1 1 banco_um_exemplar) as ([_ H201] & _).
  destruct (X20_borrow_outcome 1000 1 1 banco_esgotado) as (_ & Hf).
  split.
  - apply H201.
    exists (mkUsuario "Ana" "ana@exemplo.br" "segredo"),
           (mkLivro "A" "Autor" 1 "Editora" "Romance" "Livre" None).
    repeat split; try (vm_compute; reflexivity).
  - apply Hf. vm_compute. discriminate.
Defined.

(** ** The loan listings *)

Lemma elem_of_getEmprestimosUsuario u b x :
  x ∈ getEmprestimosUsuario u b
  ↔ linhas (Emprestimos b) !! ecl_id x = Some (ecl_emprestimo x)
    ∧ UsuarioId (ecl_emprestimo x) = u
    ∧ ecl_Livro x = linhas (Livros b) !! LivroId (ecl_emprestimo x).
Proof.
  unfold getEmprestimosUsuario. rewrite list_elem_of_fmap. split.
  - intros ([k e] & -> & Hke). apply elem_of_findAll in Hke as [Hk Hu].
    apply bool_decide_eq_true in Hu. by simpl.
  - intros (Hk & Hu & Hl). exists (ecl_id x, ecl_emprestimo x). split.
    + destruct x. simpl in *. by rewrite Hl.
    + apply elem_of_findAll. split; [done|]. by apply bool_decide_eq_true.
Qed.

(** X21.  [GET /usuario/:usuarioId/emprestimos] lists exactly the stored
    loans of that user, no loan twice, each with the stored row of its
    book; in every store the server can reach the book is never [null]. *)
Theorem X21_loans_of_user `{!Ambiente} u b :
  (∀ x, x ∈ getEmprestimosUsuario u b
        ↔ linhas (Emprestimos b) !! ecl_id x = Some (ecl_emprestimo x)
          ∧ UsuarioId (ecl_emprestimo x) = u
          ∧ ecl_Livro x = linhas (Livros b) !! LivroId (ecl_emprestimo x))
  ∧ NoDup (ecl_id <$> getEmprestimosUsuario u b)
  ∧ (alcancavel b →
     ∀ x, x ∈ getEmprestimosUsuario u b → is_Some (ecl_Livro x)).
Proof.
  pose proof (elem_of_getEmprestimosUsuario u b) as Hin.
  split; [done|]. split.
  - unfold getEmprestimosUsuario. rewrite <- list_fmap_compose.
    apply NoDup_fst_findAll.
  - intros Halc x [Hk [_ ->]]%Hin.
    by destruct (referencias_validas_alcancavel b Halc _ _ Hk).
Qed.

Lemma X21_loans_of_user_witness :
  mkEmprestimoComLivro 1 (emprestimo_novo 1000 1 1)
    (Some (mkLivro "A" "Autor" 0 "Editora" "Romance" "Livre" None))
  ∈ getEmprestimosUsuario 1 banco_emprestado.
Proof.
  destruct (X21_loans_of_user 1 banco_emprestado) as (Hin & _).
  apply Hin. simpl. repeat split; vm_compute; reflexivity.
Defined.

(** X22.  [GET /livros-alugados] lists exactly the stored loans, no loan
    twice, each with the name and e-mail of its user and the title and
    author of its book, as stored; in every store the server can reach
    neither is [null]. *)
Theorem X22_all_loans `{!Ambiente} b :
  (∀ x, x ∈ getLivrosAlugados b
        ↔ linhas (Emprestimos b) !! eul_id x = Some (eul_emprestimo x)
          ∧ eul_Usuario x
            = (λ u, mkUsuarioResumo (nome u) (email u))
              <$> linhas (Usuarios b) !! UsuarioId (eul_emprestimo x)
          ∧ eul_Livro x
            = (λ l, mkLivroResumo (titulo l) (autor l))
              <$> linhas (Livros b) !! LivroId (eul_emprestimo x))
  ∧ NoDup (eul_id <$> getLivrosAlugados b)
  ∧ (alcancavel b →
     ∀ x, x ∈ getLivrosAlugados b →
          is_Some (eul_Usuario x) ∧ is_Some (eul_Livro x)).
Proof.
  assert (∀ x, x ∈ getLivrosAlugados b
        ↔ linhas (Emprestimos b) !! eul_id x = Some (eul_emprestimo x)
          ∧ eul_Usuario x
            = (λ u, mkUsuarioResumo (nome u) (email u))
              <$> linhas (Usuarios b) !! UsuarioId (eul_emprestimo x)
          ∧ eul_Livro x
            = (λ l, mkLivroResumo (titulo l) (autor l))
              <$> linhas (Livros b) !! LivroId (eul_emprestimo x))
    as Hin.
  { intros x. unfold getLivrosAlugados. rewrite list_elem_of_fmap. split.
    - intros ([k e] & -> & Hke). apply elem_of_findAll in Hke as [Hk _].
      by simpl.
    - intros (Hk & Hu & Hl). exists (eul_id x, eul_emprestimo x). split.
      + destruct x. simpl in *. by rewrite Hu, Hl.
      + by apply elem_of_findAll. }
  split; [done|]. split.
  - unfold getLivrosAlugados. rewrite <- list_fmap_compose.
    apply NoDup_fst_findAll.
  - intros Halc x (Hk & -> & ->)%Hin.
    destruct (referencias_validas_alcancavel b Halc _ _ Hk)
      as [[usr ->] [livro ->]].
    split; by eexists.
Qed.

Lemma X22_all_loans_witness :
  mkEmprestimoComUsuarioLivro 1 (emprestimo_novo 1000 1 1)
    (Some (mkUsuarioResumo "Ana" "ana@exemplo.br"))
    (Some (mkLivroResumo "A" "Autor"))
  ∈ getLivrosAlugados banco_emprestado.
Proof.
  destruct (X22_all_loans banco_emprestado) as (Hin & _).
  apply Hin. simpl. repeat split; vm_compute; reflexivity.
Defined.

(** X23.  After a successful borrow the borrower's loan list shows the new
    loan joined with the book at its lowered quantity; after the return of
    a loan whose book exists, no loan list shows that loan any more. *)
Theorem X23_loan_list_follows_borrow_and_return `{!Ambiente} agora u l b usuario livro
  (Hkeys : chaves_abaixo (Emprestimos b))
  (Hu : linhas (Usuarios b) !! u = Some usuario)
  (Hl : linhas (Livros b) !! l = Some livro)
  (Hq : 0 < quantidade livro) :
  let k := autoIncrement (Emprestimos b) in
  mkEmprestimoComLivro k (emprestimo_novo agora u l)
    (Some (com_quantidade (quantidade livro - 1) livro))
  ∈ getEmprestimosUsuario u (alugar agora u l b).1
  ∧ ∀ v x, x ∈ getEmprestimosUsuario v
                 (devolver k (alugar agora u l b).1).1 →
           ecl_id x ≠ k.
Proof.
  cbv zeta. rewrite (alugar_sucesso _ _ _ _ _ _ Hu Hl Hq). split.
  - apply elem_of_getEmprestimosUsuario. simpl.
    by rewrite !lookup_insert_eq.
  - intros v x [Hx _]%elem_of_getEmprestimosUsuario Hk.
    rewrite (devolver_sucesso _ _ (emprestimo_novo agora u l)
               (com_quantidade (quantidade livro - 1) livro)) in Hx;
      [| by simpl; rewrite lookup_insert_eq
       | by simpl; rewrite lookup_insert_eq].
    simpl in Hx. rewrite Hk in Hx. by rewrite lookup_delete_eq in Hx.
Qed.

Lemma X23_loan_list_follows_borrow_and_return_witness :
  mkEmprestimoComLivro 1 (emprestimo_novo 1000 1 1)
    (Some (mkLivro "A" "Autor" 0 "Editora" "Romance" "Livre" None))
  ∈ getEmprestimosUsuario 1 (alugar 1000 1 1 banco_um_exemplar).1.
Proof.
  destruct (X23_loan_list_follows_borrow_and_return 1000 1 1
              banco_um_exemplar
              (mkUsuario "Ana" "ana@exemplo.br" "segredo")
              (mkLivro "A" "Autor" 1 "Editora" "Romance" "Livre" None))
    as [Hin _].
  - apply chaves_abaixo_vazio.
  - vm_compute. reflexivity.
  - vm_compute. reflexivity.
  - simpl. lia.
  - exact Hin.
Defined.

(** ** Runs of the lending engine *)

Lemma saldo_motor `{!Ambiente} p b k :
  do_motor p = true → chaves_abaixo (Emprestimos b) →
  saldo k (atender p b).1 = saldo k b.
Proof.
  intros Hp Hkeys.
  destruct p as [body file|l body file|body|u body|em s|agora u l|j|j];
    try discriminate Hp; simpl.
  - by apply saldo_alugar.
  - apply saldo_devolver.
  - apply saldo_renovar.
Qed.

Lemma saldo_motor_todos `{!Ambiente} ps b k :
  forallb do_motor ps = true → chaves_abaixo (Emprestimos b) →
  saldo k (atender_todos ps b) = saldo k b.
Proof.
  revert b. induction ps as [|p ps IH]; intros b Hps Hkeys; [done|].
  simpl in Hps. apply andb_true_iff in Hps as [Hp Hps]. simpl.
  rewrite IH; [by apply saldo_motor | done | by apply chaves_abaixo_atender].
Qed.

Lemma quantidades_nao_negativas_motor_todos `{!Ambiente} ps b :
  forallb do_motor ps = true →
  quantidades_nao_negativas b →
  quantidades_nao_negativas (atender_todos ps b).
Proof.
  revert b. induction ps as [|p ps IH]; intros b Hps Hb; [done|].
  simpl in Hps. apply andb_true_iff in Hps as [Hp Hps]. simpl.
  apply IH; [done | by apply quantidades_nao_negativas_motor].
Qed.

(** X24.  Over any run of borrow, return and renew requests, served one
    after the other, the quantity of each book plus the number of open
    loans on it stays what it was at the start of the run. *)
Theorem X24_engine_run_keeps_sum `{!Ambiente} ps b k
  (Hps : forallb do_motor ps = true)
  (Hkeys : chaves_abaixo (Emprestimos b)) :
  saldo k (atender_todos ps b) = saldo k b.
Proof. by apply saldo_motor_todos. Qed.

Lemma X24_engine_run_keeps_sum_witness :
  saldo 1 (atender_todos
             [Alugar 1000 1 1; Renovar 1; Alugar 2000 2 1; Devolver 1;
              Alugar 3000 2 1]
             banco_um_exemplar)
  = Some 1.
Proof.
  rewrite (X24_engine_run_keeps_sum _ banco_um_exemplar 1).
  - vm_compute. reflexivity.
  - reflexivity.
  - apply chaves_abaixo_vazio.
Defined.

(** X25.  The engine never lends more copies than there are: in a store
    without negative quantities, after any run of borrow, return and renew
    requests served one after the other, the number of open loans on a book
    is at most its quantity plus its open loans at the start of the run. *)
Theorem X25_engine_never_overlends `{!Ambiente} ps b k total
  (Hps : forallb do_motor ps = true)
  (Hkeys : chaves_abaixo (Emprestimos b))
  (Hb : quantidades_nao_negativas b)
  (Htotal : saldo k b = Some total) :
  Z.of_nat (size (emprestimos_do_livro k (atender_todos ps b))) ≤ total.
Proof.
  pose proof (saldo_motor_todos ps b k Hps Hkeys) as Hs.
  pose proof (quantidades_nao_negativas_motor_todos ps b Hps Hb) as Hq.
  rewrite Htotal in Hs. unfold saldo in Hs.
  destruct (linhas (Livros (atender_todos ps b)) !! k) as [livro|] eqn:Hl;
    [|done].
  simpl in Hs. injection Hs as Hs.
  pose proof (Hq k livro Hl) as Hpos. simpl in Hpos. lia.
Qed.

Lemma X25_engine_never_overlends_witness :
  Z.of_nat (size (emprestimos_do_livro 1
                    (atender_todos
                       [Alugar 1000 1 1; Alugar 2000 2 1; Alugar 3000 2 1]
                       banco_um_exemplar)))
  ≤ 1.
Proof.
  apply (X25_engine_never_overlends _ banco_um_exemplar 1 1).
  - reflexivity.
  - apply chaves_abaixo_vazio.
  - unfold quantidades_nao_negativas. apply (bool_decide_unpack _).
    vm_compute. exact I.
  - vm_compute. reflexivity.
Defined.
